(** * pdf_margin_analyzer: margin measurement, statistics and crop solving

    A shallow embedding of [pdf_margin_analyzer.py].

    Numbers.  The program computes with IEEE doubles.  Finite doubles are
    modelled by exact rationals [Q] (rounding, overflow and signed zeros are
    abstracted away) and the one special value the program creates on
    purpose, [np.NaN], is kept as a separate constructor with the IEEE
    comparison rule (every ordered comparison with NaN is false).
    Rationals are compared with [==]; two representations of the same
    rational stand for the same double.  Comparisons, minima, maxima and
    the selection of order statistics are the same on doubles; sums,
    quotients and the solution of the crop system are rounded by the
    program.  The statements on such results are therefore made up to a
    tolerance and on inputs that keep the computation well conditioned,
    or on quantities that rounding leaves exact.

    Dictionaries.  Python dicts are insertion-ordered, and the program
    iterates over them, so they are association lists kept in insertion
    order.

    Exceptions.  Python code that can raise returns a [result]. *)

From Stdlib Require Import List String Bool Arith ZArith QArith Qabs Qround.
From Stdlib Require Import Lia Lqa Field Qfield Permutation Sorted.
Import ListNotations.
Open Scope string_scope.
Open Scope Q_scope.

(** ** Exceptions and the error monad *)

(** The exceptions the program can raise.  The source defines no exception
    class of its own and has no [raise] statement: every exception comes
    from the interpreter or from numpy. *)
Inductive exn : Type :=
| KeyError (key : string)
| ZeroDivisionError
| ValueError (msg : string)
| LinAlgError (msg : string).

(** The Python class name of an exception. *)
Definition exn_class (e : exn) : string :=
  match e with
  | KeyError _ => "KeyError"
  | ZeroDivisionError => "ZeroDivisionError"
  | ValueError _ => "ValueError"
  | LinAlgError _ => "LinAlgError"
  end.

(** The module that defines the class of an exception. *)
Definition exn_module (e : exn) : string :=
  match e with
  | KeyError _ | ZeroDivisionError | ValueError _ => "builtins"
  | LinAlgError _ => "numpy.linalg"
  end.

Inductive result (A : Type) : Type :=
| Ok (a : A)
| Raise (e : exn).
Arguments Ok {A} a.
Arguments Raise {A} e.

Definition bind {A B : Type} (r : result A) (k : A -> result B) : result B :=
  match r with
  | Ok a => k a
  | Raise e => Raise e
  end.

Notation "x <- r ;; k" := (bind r (fun x => k))
  (at level 61, r at next level, right associativity).
Notation "' pat <- r ;; k" := (bind r (fun x => match x with pat => k end))
  (at level 61, pat pattern, r at next level, right associativity).


(** ** Floats *)

Inductive pyfloat : Type :=
| NaN
| Fin (q : Q).

(** [np.isnan] *)
Definition isnan (x : pyfloat) : bool :=
  match x with
  | NaN => true
  | Fin _ => false
  end.

Definition Qltb (x y : Q) : bool := negb (Qle_bool y x).

(** [x < y] on floats. *)
Definition flt (x y : pyfloat) : bool :=
  match x, y with
  | Fin a, Fin b => Qltb a b
  | _, _ => false
  end.

(** [x - y] on floats. *)
Definition fsub (x y : pyfloat) : pyfloat :=
  match x, y with
  | Fin a, Fin b => Fin (a - b)
  | _, _ => NaN
  end.

(** [a / b] on Python floats: division by zero raises. *)
Definition py_div (a b : Q) : result Q :=
  if Qeq_bool b 0 then Raise ZeroDivisionError else Ok (a / b).

(** ** Dictionaries *)

Module PyDict.
Section Dict.
Context {V : Type}.

Definition dict : Type := list (string * V).

Definition keys (d : dict) : list string := map fst d.

Fixpoint lookup (k : string) (d : dict) : option V :=
  match d with
  | [] => None
  | (k', v) :: d' => if String.eqb k k' then Some v else lookup k d'
  end.

(** [k in d] *)
Definition mem (k : string) (d : dict) : bool :=
  match lookup k d with
  | Some _ => true
  | None => false
  end.

(** [d[k]] *)
Definition getitem (d : dict) (k : string) : result V :=
  match lookup k d with
  | Some v => Ok v
  | None => Raise (KeyError k)
  end.

(** [d[k] = v]: an existing key keeps its position, a new key goes last. *)
Fixpoint setitem (k : string) (v : V) (d : dict) : dict :=
  match d with
  | [] => [(k, v)]
  | (k', v') :: d' =>
      if String.eqb k k' then (k', v) :: d' else (k', v') :: setitem k v d'
  end.

Fixpoint remove (k : string) (d : dict) : dict :=
  match d with
  | [] => []
  | (k', v') :: d' =>
      if String.eqb k k' then d' else (k', v') :: remove k d'
  end.

(** [d.pop(k)]: the value and the dict without the key. *)
Definition pop (k : string) (d : dict) : result (V * dict) :=
  match lookup k d with
  | Some v => Ok (v, remove k d)
  | None => Raise (KeyError k)
  end.

(** The representation invariant of a Python dict: no key twice. *)
Definition is_dict (d : dict) : Prop := NoDup (keys d).
End Dict.
Arguments dict V : clear implicits.
End PyDict.
Import PyDict.

(** ** Pages *)

(** A content block of [page.get_text("blocks")]: only the rectangle is
    read. *)
Record Block : Type := mkBlock { bx0 : Q; by0 : Q; bx1 : Q; by1 : Q }.

(** A page as the program reads it: [page.rect.width], [page.rect.height]
    and the block list. *)
Record Page : Type := mkPage { width : Q; height : Q; text_blocks : list Block }.

(** The document library never hands out a page of empty extent. *)
Definition page_extent_ok (p : Page) : Prop :=
  ~ width p == 0 /\ ~ height p == 0.

(** A margin record: keys to floats. *)
Definition MarginRecord : Type := dict pyfloat.

(** [min(...)] of a non-empty sequence: the first least element. *)
Definition py_min (x : Q) (l : list Q) : Q :=
  fold_left (fun best y => if Qltb y best then y else best) l x.

(** [max(...)] of a non-empty sequence: the first greatest element. *)
Definition py_max (x : Q) (l : list Q) : Q :=
  fold_left (fun best y => if Qltb best y then y else best) l x.

Definition get_bounding_box (page : Page) : result MarginRecord :=
  match text_blocks page with
  | [] => Ok [("left", NaN); ("top", NaN); ("right", NaN); ("bottom", NaN)]
  | b :: bs =>
      let x0 := py_min (bx0 b) (map bx0 bs) in
      let y0 := py_min (by0 b) (map by0 bs) in
      let x1 := py_max (bx1 b) (map bx1 bs) in
      let y1 := py_max (by1 b) (map by1 bs) in
      l <- py_div x0 (width page) ;;
      t <- py_div y0 (height page) ;;
      r <- py_div (width page - x1) (width page) ;;
      bo <- py_div (height page - y1) (height page) ;;
      Ok [("left", Fin l); ("top", Fin t); ("right", Fin r); ("bottom", Fin bo)]
  end.

(** ** Collecting margins *)

(** The body of [if inner_outer:] for the page at 0-based index [i]. *)
Definition rename_inner_outer (i : nat) (bbox : MarginRecord) : result MarginRecord :=
  if Nat.eqb ((i + 1) mod 2) 0 then
    '(l, bbox) <- pop "left" bbox ;;
    let bbox := setitem "inner" l bbox in
    '(r, bbox) <- pop "right" bbox ;;
    Ok (setitem "outer" r bbox)
  else
    '(r, bbox) <- pop "right" bbox ;;
    let bbox := setitem "inner" r bbox in
    '(l, bbox) <- pop "left" bbox ;;
    Ok (setitem "outer" l bbox).

(** [i in exception_list] *)
Definition excluded (i : nat) (exception_list : list Z) : bool :=
  existsb (Z.eqb (Z.of_nat i)) exception_list.

(** What the loop body appends for the retained page at index [i]. *)
Definition margin_of_page (inner_outer : bool) (i : nat) (page : Page)
    : result MarginRecord :=
  bbox <- get_bounding_box page ;;
  if inner_outer then rename_inner_outer i bbox else Ok bbox.

(** The [for i, page in enumerate(pages)] loop, from index [i] on, with the
    list [margins] built so far. *)
Fixpoint calculate_margins_loop (i : nat) (pages : list Page)
    (exception_list : list Z) (inner_outer : bool)
    (margins : list MarginRecord) : result (list MarginRecord) :=
  match pages with
  | [] => Ok margins
  | page :: rest =>
      if excluded i exception_list then
        calculate_margins_loop (S i) rest exception_list inner_outer margins
      else
        bbox <- margin_of_page inner_outer i page ;;
        calculate_margins_loop (S i) rest exception_list inner_outer
          (margins ++ [bbox])
  end.

Definition calculate_margins (pages : list Page) (exception_list : list Z)
    (inner_outer : bool) : result (list MarginRecord) :=
  calculate_margins_loop 0 pages exception_list inner_outer [].

(** ** Statistics *)

(** The numpy reductions, on the list of finite values they are given. *)

Definition zero_size (op : string) : exn :=
  ValueError ("zero-size array to reduction operation " ++ op
              ++ " which has no identity").

Definition np_min (data : list Q) : result pyfloat :=
  match data with
  | [] => Raise (zero_size "minimum")
  | x :: l => Ok (Fin (py_min x l))
  end.

Definition np_max (data : list Q) : result pyfloat :=
  match data with
  | [] => Raise (zero_size "maximum")
  | x :: l => Ok (Fin (py_max x l))
  end.

Definition np_sum (data : list Q) : Q := fold_left Qplus data 0.

Definition Qlen (data : list Q) : Q := inject_Z (Z.of_nat (List.length data)).

(** [np.mean]: NaN (and a warning) on an empty array. *)
Definition np_mean (data : list Q) : pyfloat :=
  match data with
  | [] => NaN
  | _ => Fin (np_sum data / Qlen data)
  end.

Fixpoint insert_sorted (x : Q) (l : list Q) : list Q :=
  match l with
  | [] => [x]
  | y :: l' => if Qle_bool x y then x :: l else y :: insert_sorted x l'
  end.

Definition np_sort (data : list Q) : list Q := fold_right insert_sorted [] data.

(** [np.median]: the middle element of the sorted data, or the mean of the
    two middle elements. *)
Definition np_median (data : list Q) : pyfloat :=
  let arr := np_sort data in
  let n := List.length arr in
  match arr with
  | [] => NaN
  | _ =>
      if Nat.odd n then Fin (nth (n / 2) arr 0)
      else Fin ((nth (n / 2 - 1) arr 0 + nth (n / 2) arr 0) / 2)
  end.

(** [np.percentile(data, q)] with the default (linear) method: the virtual
    index [(n - 1) * q / 100] is split into its floor and the fraction
    [gamma]; the two neighbouring order statistics (indices clipped to the
    array) are interpolated. *)
Definition np_percentile (data : list Q) (q : Q) : pyfloat :=
  let arr := np_sort data in
  let n := Z.of_nat (List.length arr) in
  match arr with
  | [] => NaN
  | _ =>
      let virtual_index := inject_Z (n - 1) * (q / 100) in
      let previous_index := Qfloor virtual_index in
      let gamma := virtual_index - inject_Z previous_index in
      let clip := fun z : Z => Z.to_nat (Z.max 0 (Z.min z (n - 1))) in
      let previous := nth (clip previous_index) arr 0 in
      let next := nth (clip (previous_index + 1)%Z) arr 0 in
      Fin (previous + (next - previous) * gamma)
  end.

Definition calculate_iqr (data : list Q) : pyfloat :=
  let q75 := np_percentile data 75 in
  let q25 := np_percentile data 25 in
  fsub q75 q25.

(** A square root kept symbolic: the value is the root of the radicand. *)
Inductive surd : Type :=
| Sqrt (radicand : pyfloat).

(** [np.std]: the root of the mean squared deviation from the mean. *)
Definition np_std (data : list Q) : surd :=
  match np_mean data with
  | NaN => Sqrt NaN
  | Fin mu => Sqrt (np_mean (map (fun x => (x - mu) * (x - mu)) data))
  end.

(** The inner dict of [statistics[key]]; its six keys are literals. *)
Record Stats : Type := mkStats {
  st_min : pyfloat;
  st_max : pyfloat;
  st_mean : pyfloat;
  st_median : pyfloat;
  st_iqr : pyfloat;
  st_stddev : surd
}.

(** [[margin[key] for margin in margins if not np.isnan(margin[key])]] *)
Fixpoint collect (key : string) (margins : list MarginRecord) : result (list Q) :=
  match margins with
  | [] => Ok []
  | margin :: rest =>
      v <- getitem margin key ;;
      data <- collect key rest ;;
      Ok (match v with
          | NaN => data
          | Fin q => q :: data
          end)
  end.

(** The dict literal assigned to [statistics[key]], evaluated left to
    right. *)
Definition describe (data : list Q) : result Stats :=
  mn <- np_min data ;;
  mx <- np_max data ;;
  Ok (mkStats mn mx (np_mean data) (np_median data) (calculate_iqr data)
        (np_std data)).

(** The [for key in margins[0]] loop over the keys still to do. *)
Fixpoint statistics_loop (ks : list string) (margins : list MarginRecord)
    (statistics : dict Stats) : result (dict Stats) :=
  match ks with
  | [] => Ok statistics
  | key :: ks' =>
      data <- collect key margins ;;
      st <- describe data ;;
      statistics_loop ks' margins (setitem key st statistics)
  end.

(** [None] is Python's [None], returned for an empty list. *)
Definition statistics_margins (margins : list MarginRecord)
    : result (option (dict Stats)) :=
  match margins with
  | [] => Ok None
  | first :: _ =>
      statistics <- statistics_loop (keys first) margins [] ;;
      Ok (Some statistics)
  end.

(** ** Bad cuts *)

(** [{key: [] for key in margin_threshold.keys()}] *)
Definition empty_bad_cuts (margin_threshold : dict pyfloat) : dict (list nat) :=
  fold_left (fun bad_cuts key => setitem key [] bad_cuts)
    (keys margin_threshold) [].

(** The [for key in margin] loop for record [i], over the keys still to
    do. *)
Fixpoint bad_cuts_keys (i : nat) (margin : MarginRecord) (ks : list string)
    (margin_threshold : dict pyfloat) (bad_cuts : dict (list nat))
    : result (dict (list nat)) :=
  match ks with
  | [] => Ok bad_cuts
  | key :: ks' =>
      v <- getitem margin key ;;
      t <- getitem margin_threshold key ;;
      bad_cuts <-
        (if flt v t then
           l <- getitem bad_cuts key ;;
           Ok (setitem key (l ++ [i])%list bad_cuts)
         else Ok bad_cuts) ;;
      bad_cuts_keys i margin ks' margin_threshold bad_cuts
  end.

(** The [for i, margin in enumerate(margins)] loop from index [i] on. *)
Fixpoint bad_cuts_loop (i : nat) (margins : list MarginRecord)
    (margin_threshold : dict pyfloat) (bad_cuts : dict (list nat))
    : result (dict (list nat)) :=
  match margins with
  | [] => Ok bad_cuts
  | margin :: rest =>
      bad_cuts <- bad_cuts_keys i margin (keys margin) margin_threshold bad_cuts ;;
      bad_cuts_loop (S i) rest margin_threshold bad_cuts
  end.

Definition get_bad_cuts_with_margin (margins : list MarginRecord)
    (margin_threshold : dict pyfloat) : result (dict (list nat)) :=
  bad_cuts_loop 0 margins margin_threshold (empty_bad_cuts margin_threshold).

(** ** Crop solving *)

Definition singular_matrix : exn := LinAlgError "Singular matrix".

(** [np.linalg.solve] on a 2x2 system, as LAPACK's gesv does it: LU
    factorisation with partial pivoting (the first entry of largest
    magnitude in the column is the pivot), a zero pivot is reported as a
    singular matrix, then forward and back substitution. *)
Definition np_linalg_solve (A : (Q * Q) * (Q * Q)) (B : Q * Q) : result (Q * Q) :=
  let '((a00, a01), (a10, a11)) := A in
  let '(b0, b1) := B in
  let '(p00, p01, pb0, p10, p11, pb1) :=
    if Qltb (Qabs a00) (Qabs a10)
    then (a10, a11, b1, a00, a01, b0)
    else (a00, a01, b0, a10, a11, b1) in
  if Qeq_bool p00 0 then Raise singular_matrix
  else
    let l := p10 / p00 in
    let u11 := p11 - l * p01 in
    if Qeq_bool u11 0 then Raise singular_matrix
    else
      let y1 := pb1 - l * pb0 in
      let x1 := y1 / u11 in
      let x0 := (pb0 - p01 * x1) / p00 in
      Ok (x0, x1).

(** The snapshot and the desired margins are finite fractions. *)
Definition solve_margin_to_cut (margins desired_margins : dict Q)
    (margin_keys : string * string) : result (Q * Q) :=
  let '(k0, k1) := margin_keys in
  m0 <- getitem margins k0 ;;
  m1 <- getitem margins k1 ;;
  d0 <- getitem desired_margins k0 ;;
  d1 <- getitem desired_margins k1 ;;
  np_linalg_solve ((d0 - 1, d0), (d1, d1 - 1)) (d0 - m0, d1 - m1).

Definition width_keys (margins : dict Q) : string * string :=
  if mem "left" margins then ("left", "right") else ("inner", "outer").

Definition height_keys : string * string := ("top", "bottom").

Definition calculate_margins_to_cut (margins desired_margins : dict Q)
    : result (dict Q) :=
  x_width <- solve_margin_to_cut margins desired_margins (width_keys margins) ;;
  x_height <- solve_margin_to_cut margins desired_margins height_keys ;;
  Ok [(fst (width_keys margins), fst x_width);
      (snd (width_keys margins), snd x_width);
      ("top", fst x_height);
      ("bottom", snd x_height)].

(** ** Notions used in the statements *)

Definition fails_with_class {A : Type} (r : result A) (cls : string) : Prop :=
  exists e, r = Raise e /\ exn_class e = cls.

(** [x] is a least element of [l]. *)
Definition is_min (x : Q) (l : list Q) : Prop :=
  In x l /\ forall y, In y l -> x <= y.

(** [x] is a greatest element of [l]. *)
Definition is_max (x : Q) (l : list Q) : Prop :=
  In x l /\ forall y, In y l -> y <= x.

(** The retained pages with their document indices, from index [i] on. *)
Fixpoint retained_from (i : nat) (pages : list Page) (exception_list : list Z)
    : list (nat * Page) :=
  match pages with
  | [] => []
  | page :: rest =>
      if excluded i exception_list
      then retained_from (S i) rest exception_list
      else (i, page) :: retained_from (S i) rest exception_list
  end.

(** The number of indices below [n] that are excluded. *)
Definition excluded_below (n : nat) (exception_list : list Z) : nat :=
  List.length (filter (fun i => excluded i exception_list) (seq 0 n)).

(** The finite values of [key] across the records, in order. *)
Definition finite_values (key : string) (margins : list MarginRecord) : list Q :=
  flat_map (fun margin =>
              match lookup key margin with
              | Some (Fin q) => [q]
              | _ => []
              end) margins.

(** Every record has every key of the first one. *)
Definition uniform_keys (margins : list MarginRecord) : Prop :=
  match margins with
  | [] => True
  | first :: _ =>
      Forall (fun margin => forall k, In k (keys first) -> lookup k margin <> None)
        margins
  end.

(** Is the value of [key] in [margin] strictly below [t]? *)
Definition is_below (key : string) (t : pyfloat) (margin : MarginRecord) : bool :=
  match lookup key margin with
  | Some v => flt v t
  | None => false
  end.

(** The indices (counted from [i]) of the records below [t] at [key]. *)
Fixpoint below_from (i : nat) (key : string) (t : pyfloat)
    (margins : list MarginRecord) : list nat :=
  match margins with
  | [] => []
  | margin :: rest =>
      if is_below key t margin
      then i :: below_from (S i) key t rest
      else below_from (S i) key t rest
  end.

(** The threshold mapping has an entry for every key of every record. *)
Definition thresholds_cover (margin_threshold : dict pyfloat)
    (margins : list MarginRecord) : Prop :=
  Forall (fun margin => forall k, In k (keys margin) ->
                                  lookup k margin_threshold <> None) margins.

(** The determinant of the coefficient matrix of one axis. *)
Definition det (d0 d1 : Q) : Q := (d0 - 1) * (d1 - 1) - d0 * d1.

(** The observed and desired values of one axis, when all four are
    present. *)
Definition axis_values (margins desired_margins : dict Q)
    (margin_keys : string * string) : option (Q * Q * Q * Q) :=
  match lookup (fst margin_keys) margins, lookup (snd margin_keys) margins,
        lookup (fst margin_keys) desired_margins,
        lookup (snd margin_keys) desired_margins with
  | Some m0, Some m1, Some d0, Some d1 => Some (m0, m1, d0, d1)
  | _, _, _, _ => None
  end.





(** The tolerance of the round-trip property. *)
Definition tolerance : Q := 1 # 1000000000.

(** The result of [get_bad_cuts_with_margin] is, per threshold key, the
    increasing list of the indices of the records whose value for the key is
    strictly below the threshold. *)
Definition flags_records_below (margins : list MarginRecord)
    (margin_threshold : dict pyfloat) : Prop :=
  exists bad_cuts,
    get_bad_cuts_with_margin margins margin_threshold = Ok bad_cuts /\
    keys bad_cuts = keys margin_threshold /\
    forall k t, lookup k margin_threshold = Some t ->
      exists l,
        lookup k bad_cuts = Some l /\
        StronglySorted lt l /\
        forall i, In i l <->
                  exists rec v, nth_error margins i = Some rec /\
                                lookup k rec = Some v /\ flt v t = true.

(** The result dict has a list for every threshold key. *)
Definition bad_cuts_ready (margin_threshold : dict pyfloat)
    (bad_cuts : dict (list nat)) : Prop :=
  forall k, lookup k margin_threshold <> None -> lookup k bad_cuts <> None.

(** Linear interpolation in a sorted array at the virtual index [h]: the
    value [np_percentile] computes from its virtual index. *)
Definition lerp_at (arr : list Q) (h : Q) : Q :=
  let n := Z.of_nat (List.length arr) in
  let previous_index := Qfloor h in
  let gamma := h - inject_Z previous_index in
  let clip := fun z : Z => Z.to_nat (Z.max 0 (Z.min z (n - 1))) in
  let previous := nth (clip previous_index) arr 0 in
  let next := nth (clip (previous_index + 1)%Z) arr 0 in
  previous + (next - previous) * gamma.

(** The virtual index of the [q]-th percentile of [n] values. *)
Definition virtual_index (n : nat) (q : Q) : Q :=
  inject_Z (Z.of_nat n - 1) * (q / 100).

(** [st] holds the six statistics of the non-empty list [data]; the
    percentiles and the median are interpolated in the sorted data at the
    virtual indices of 25, 50 and 75. *)
Definition describes (data : list Q) (st : Stats) : Prop :=
  exists mn mx med p25 p75,
    st_min st = Fin mn /\ is_min mn data /\
    st_max st = Fin mx /\ is_max mx data /\
    st_mean st = Fin (np_sum data / Qlen data) /\
    st_median st = Fin med /\ np_median data = Fin med /\
    np_percentile data 25 = Fin p25 /\
    np_percentile data 75 = Fin p75 /\
    st_iqr st = Fin (p75 - p25) /\
    p25 <= med /\ med <= p75 /\
    (exists arr,
        Permutation arr data /\ StronglySorted Qle arr /\
        p25 = lerp_at arr (virtual_index (List.length data) 25) /\
        med == lerp_at arr (virtual_index (List.length data) 50) /\
        p75 = lerp_at arr (virtual_index (List.length data) 75)) /\
    st_stddev st
    = Sqrt (Fin (np_sum (map (fun x => (x - np_sum data / Qlen data)
                                       * (x - np_sum data / Qlen data)) data)
                 / Qlen data)).

(** The call fails with the named exception, or it returns statistics
    that leave [key] out. *)
Definition guarded_for_key (margins : list MarginRecord) (key cls : string) : Prop :=
  fails_with_class (statistics_margins margins) cls \/
  exists statistics,
    statistics_margins margins = Ok (Some statistics) /\
    lookup key statistics = None.

(** The call returns, for each key of the first record, the statistics of
    the finite values of the key. *)
Definition statistics_of_finite_values (margins : list MarginRecord) : Prop :=
  exists first rest statistics,
    margins = first :: rest /\
    statistics_margins margins = Ok (Some statistics) /\
    keys statistics = keys first /\
    forall key, In key (keys first) ->
      exists st, lookup key statistics = Some st /\
                 describes (finite_values key margins) st.

(** The keys [ks] all occur in every record. *)
Definition keys_present (margins : list MarginRecord) (ks : list string) : Prop :=
  forall k, In k ks -> Forall (fun margin => lookup k margin <> None) margins.

(** ** Sample inputs *)

(** A page of 100 by 200 units with two content blocks. *)
Definition sample_page : Page :=
  mkPage 100 200 [mkBlock 10 20 90 180; mkBlock 5 30 80 190].

(** A page without content. *)
Definition blank_page : Page := mkPage 100 200 [].

(** A record of a page named by inner/outer. *)
Definition inner_outer_record : MarginRecord :=
  [("top", Fin (1 # 10)); ("bottom", Fin (1 # 10));
   ("inner", Fin (1 # 10)); ("outer", Fin (1 # 10))].

(** Records named by left/right; the second one has a NaN. *)
Definition left_right_records : list MarginRecord :=
  [[("left", Fin (1 # 10)); ("top", Fin (1 # 10));
    ("right", Fin (3 # 10)); ("bottom", Fin (1 # 10))];
   [("left", NaN); ("top", Fin (1 # 20));
    ("right", Fin (1 # 10)); ("bottom", Fin (1 # 4))]].

Definition left_right_thresholds : dict pyfloat :=
  [("left", Fin (1 # 5)); ("right", Fin (1 # 5));
   ("top", Fin (1 # 5)); ("bottom", Fin (1 # 5))].

(** The snapshot of the round-trip example. *)
Definition sample_snapshot : dict Q :=
  [("left", 1 # 10); ("right", 1 # 10); ("top", 12 # 100); ("bottom", 12 # 100)].

(** A narrower snapshot, to be brought to [sample_snapshot]. *)
Definition narrow_snapshot : dict Q :=
  [("left", 5 # 100); ("right", 5 # 100); ("top", 12 # 100); ("bottom", 12 # 100)].


Definition desired_tenth : dict Q :=
  [("left", 1 # 10); ("right", 1 # 10); ("top", 1 # 10); ("bottom", 1 # 10)].



(** The record of a page without content. *)
Definition blank_record : MarginRecord :=
  [("left", NaN); ("top", NaN); ("right", NaN); ("bottom", NaN)].

(** A document of three pages and an exclusion list with entries that
    are not page indices. *)
Definition sample_pages : list Page := [sample_page; blank_page; sample_page].

Definition sample_exceptions : list Z := [0%Z; 7%Z; (-1)%Z].

(** ** Notions used in the further properties *)


(** The keys of the records of a run, in their order. *)
Definition record_keys (inner_outer : bool) : list string :=
  if inner_outer
  then ["top"; "bottom"; "inner"; "outer"]
  else ["left"; "top"; "right"; "bottom"].

Definition all_nan (rec : MarginRecord) : Prop :=
  Forall (fun kv => snd kv = NaN) rec.

Definition all_finite (rec : MarginRecord) : Prop :=
  Forall (fun kv => isnan (snd kv) = false) rec.

(** The first two steps of [main]: collect the margins, then compute their
    statistics. *)
Definition measure_document (pages : list Page) (exception_list : list Z)
    (inner_outer : bool) : result (option (dict Stats)) :=
  margins <- calculate_margins pages exception_list inner_outer ;;
  statistics_margins margins.

(** The crop fractions, as [main] passes them on as thresholds. *)
Definition as_thresholds (cut : dict Q) : dict pyfloat :=
  map (fun kc => (fst kc, Fin (snd kc))) cut.

(** The adjustment steps of [main] after the snapshot: solve for the crop,
    then look for the pages the crop would cut into. *)
Definition bad_cuts_after_crop (margins : list MarginRecord)
    (snapshot desired_margins : dict Q) : result (dict (list nat)) :=
  margins_to_cut <- calculate_margins_to_cut snapshot desired_margins ;;
  get_bad_cuts_with_margin margins (as_thresholds margins_to_cut).


(** A page of no width with a block. *)
Definition flat_page : Page := mkPage 0 200 [mkBlock 0 20 0 180].

(** A record with different left and right margins. *)
Definition sample_record : MarginRecord :=
  [("left", Fin (1 # 10)); ("top", Fin (1 # 10));
   ("right", Fin (3 # 10)); ("bottom", Fin (1 # 10))].

(** Does the page have content blocks? *)
Definition has_content (page : Page) : bool :=
  match text_blocks page with
  | [] => false
  | _ :: _ => true
  end.

(** Thresholds above those of [left_right_thresholds]. *)
Definition raised_thresholds : dict pyfloat :=
  [("left", Fin (1 # 4)); ("right", Fin (1 # 5));
   ("top", Fin (1 # 2)); ("bottom", Fin (1 # 5))].

(** Thresholds of which one is NaN. *)
Definition nan_thresholds : dict pyfloat :=
  [("left", NaN); ("right", Fin (1 # 5));
   ("top", Fin (1 # 2)); ("bottom", Fin (1 # 5))].

(** Records of which the second lacks the key left. *)
Definition uneven_records : list MarginRecord := [sample_record; inner_outer_record].

(** A snapshot that has neither left nor inner. *)
Definition height_only_snapshot : dict Q := [("top", 1 # 10); ("bottom", 1 # 10)].

(** Desired margins named by inner/outer. *)
Definition desired_inner_outer : dict Q :=
  [("inner", 1 # 10); ("outer", 1 # 10); ("top", 1 # 10); ("bottom", 1 # 10)].

(** ** Notions used in the statements on exclusion and on tolerance *)

(** [enumerate(pages)] *)
Definition enumerate (pages : list Page) : list (nat * Page) :=
  combine (seq 0 (List.length pages)) pages.

(** Is the page index an entry of the exclusion list?  Decided on the
    entries of the list. *)
Definition listed (exception_list : list Z) (i : nat) : bool :=
  if in_dec Z.eq_dec (Z.of_nat i) exception_list then true else false.

(** The entries of an exclusion list that are indices of one of [n]
    pages. *)
Definition page_indices (n : nat) (exception_list : list Z) : list Z :=
  filter (fun z => (0 <=? z)%Z && (z <? Z.of_nat n)%Z) exception_list.

(** [rec] is the record of the page of index [i]: its bounding box, renamed
    by the parity of [i + 1] when inner/outer naming is asked for. *)
Definition is_record_of (inner_outer : bool) (i : nat) (page : Page)
    (rec : MarginRecord) : Prop :=
  exists bbox,
    get_bounding_box page = Ok bbox /\
    if inner_outer then rename_inner_outer i bbox = Ok rec else rec = bbox.

(** Margins of one axis that keep the crop system away from its two
    degenerate cases: fractions that are not negative, with observed and
    desired sums of at most 99%. *)
Definition well_conditioned (m0 m1 d0 d1 : Q) : Prop :=
  0 <= m0 /\ 0 <= m1 /\ 0 <= d0 /\ 0 <= d1 /\
  m0 + m1 <= 99 # 100 /\ d0 + d1 <= 99 # 100.







(** A document whose first page has content and no width. *)
Definition mixed_pages : list Page := [flat_page; sample_page; blank_page].

(** Three records with the same margins. *)
Definition repeated_records : list MarginRecord :=
  [sample_record; sample_record; sample_record].

(** * Proofs *)

(** ** The model at sample inputs *)

Example get_bounding_box_sample :
  get_bounding_box sample_page
  = Ok [("left", Fin (5 / 100)); ("top", Fin (20 / 200));
        ("right", Fin ((100 - 90) / 100)); ("bottom", Fin ((200 - 190) / 200))].
Proof. reflexivity. Qed.

Example calculate_margins_sample :
  calculate_margins sample_pages sample_exceptions true
  = Ok [[("top", NaN); ("bottom", NaN); ("inner", NaN); ("outer", NaN)];
        [("top", Fin (20 / 200)); ("bottom", Fin ((200 - 190) / 200));
         ("inner", Fin ((100 - 90) / 100)); ("outer", Fin (5 / 100))]].
Proof. reflexivity. Qed.

Example get_bad_cuts_sample :
  get_bad_cuts_with_margin left_right_records left_right_thresholds
  = Ok [("left", [0%nat]); ("right", [1%nat]);
        ("top", [0%nat; 1%nat]); ("bottom", [0%nat])].
Proof. reflexivity. Qed.

Example np_percentile_sample :
  exists p75 med,
    np_percentile [4; 1; 3; 2] 75 = Fin p75 /\ p75 == 13 # 4 /\
    np_median [4; 1; 3; 2] = Fin med /\ med == 5 # 2.
Proof. do 2 eexists. repeat split. Qed.

(** Widening margins of 5% to 10% takes a negative crop of 1/16 on each
    side: (1/20 + 1/16) / (1 + 1/8) = 1/10. *)
Example calculate_margins_to_cut_sample :
  exists c_left c_right c_top c_bottom,
    calculate_margins_to_cut narrow_snapshot sample_snapshot
    = Ok [("left", c_left); ("right", c_right);
          ("top", c_top); ("bottom", c_bottom)] /\
    c_left == - (1 # 16) /\ c_right == - (1 # 16) /\
    c_top == 0 /\ c_bottom == 0.
Proof. do 4 eexists. split; [reflexivity|]. repeat split. Qed.

(** ** Comparisons and division *)

Lemma Qltb_lt (a b : Q) : Qltb a b = true <-> a < b.
Proof.
  unfold Qltb. rewrite negb_true_iff. split; intro H.
  - apply Qnot_le_lt. intro Hle. apply Qle_bool_iff in Hle. congruence.
  - destruct (Qle_bool b a) eqn:E; [|reflexivity].
    apply Qle_bool_iff in E. exfalso. eapply Qlt_not_le; eassumption.
Qed.

Lemma Qltb_ge (a b : Q) : Qltb a b = false <-> b <= a.
Proof.
  unfold Qltb. rewrite negb_false_iff. apply Qle_bool_iff.
Qed.

Lemma flt_nan_l (t : pyfloat) : flt NaN t = false.
Proof. reflexivity. Qed.

Lemma py_div_ok (a b : Q) : ~ b == 0 -> py_div a b = Ok (a / b).
Proof.
  intro Hb. unfold py_div.
  destruct (Qeq_bool b 0) eqn:E; [|reflexivity].
  apply Qeq_bool_iff in E. contradiction.
Qed.

(** ** [min] and [max] *)

Lemma py_min_is_min (l : list Q) : forall x, is_min (py_min x l) (x :: l).
Proof.
  induction l as [|y l IH]; intro x; unfold py_min; simpl.
  - split; [now left|]. intros z [<-|[]]. apply Qle_refl.
  - fold (py_min (if Qltb y x then y else x) l).
    destruct (IH (if Qltb y x then y else x)) as [Hin Hle].
    destruct (Qltb y x) eqn:E.
    + apply Qltb_lt in E. split.
      * destruct Hin as [<-|Hin]; [right; now left|right; now right].
      * intros z [<-|[<-|Hz]].
        -- apply Qle_trans with y; [apply Hle; now left|now apply Qlt_le_weak].
        -- apply Hle; now left.
        -- apply Hle; now right.
    + apply Qltb_ge in E. split.
      * destruct Hin as [<-|Hin]; [now left|right; now right].
      * intros z [<-|[<-|Hz]].
        -- apply Hle; now left.
        -- apply Qle_trans with x; [apply Hle; now left|exact E].
        -- apply Hle; now right.
Qed.

Lemma py_max_is_max (l : list Q) : forall x, is_max (py_max x l) (x :: l).
Proof.
  induction l as [|y l IH]; intro x; unfold py_max; simpl.
  - split; [now left|]. intros z [<-|[]]. apply Qle_refl.
  - fold (py_max (if Qltb x y then y else x) l).
    destruct (IH (if Qltb x y then y else x)) as [Hin Hle].
    destruct (Qltb x y) eqn:E.
    + apply Qltb_lt in E. split.
      * destruct Hin as [<-|Hin]; [right; now left|right; now right].
      * intros z [<-|[<-|Hz]].
        -- apply Qle_trans with y; [now apply Qlt_le_weak|apply Hle; now left].
        -- apply Hle; now left.
        -- apply Hle; now right.
    + apply Qltb_ge in E. split.
      * destruct Hin as [<-|Hin]; [now left|right; now right].
      * intros z [<-|[<-|Hz]].
        -- apply Hle; now left.
        -- apply Qle_trans with x; [exact E|apply Hle; now left].
        -- apply Hle; now right.
Qed.

(** ** The bounding box *)

Lemma get_bounding_box_empty (page : Page) :
  text_blocks page = [] ->
  get_bounding_box page
  = Ok [("left", NaN); ("top", NaN); ("right", NaN); ("bottom", NaN)].
Proof. intro H. unfold get_bounding_box. now rewrite H. Qed.

Lemma get_bounding_box_content (page : Page) :
  text_blocks page <> [] -> page_extent_ok page ->
  exists x0 y0 x1 y1,
    is_min x0 (map bx0 (text_blocks page)) /\
    is_min y0 (map by0 (text_blocks page)) /\
    is_max x1 (map bx1 (text_blocks page)) /\
    is_max y1 (map by1 (text_blocks page)) /\
    get_bounding_box page
    = Ok [("left", Fin (x0 / width page));
          ("top", Fin (y0 / height page));
          ("right", Fin ((width page - x1) / width page));
          ("bottom", Fin ((height page - y1) / height page))].
Proof.
  intros Hne [Hw Hh]. unfold get_bounding_box.
  destruct (text_blocks page) as [|b bs]; [congruence|].
  exists (py_min (bx0 b) (map bx0 bs)), (py_min (by0 b) (map by0 bs)),
         (py_max (bx1 b) (map bx1 bs)), (py_max (by1 b) (map by1 bs)).
  repeat split; try apply py_min_is_min; try apply py_max_is_max.
  now rewrite !py_div_ok by assumption.
Qed.

(** A bounding box always has its four keys, in this order. *)
Lemma get_bounding_box_shape (page : Page) :
  page_extent_ok page ->
  exists l t r b,
    get_bounding_box page
    = Ok [("left", l); ("top", t); ("right", r); ("bottom", b)].
Proof.
  intro Hok. destruct (text_blocks page) eqn:E.
  - exists NaN, NaN, NaN, NaN. now apply get_bounding_box_empty.
  - destruct (get_bounding_box_content page) as (x0 & y0 & x1 & y1 & _ & _ & _ & _ & H);
      [congruence|assumption|].
    rewrite H. now repeat eexists.
Qed.

(** C5: a page without content blocks gets four NaN fields; a page with
    content blocks (and a non-empty extent, as every page of the document
    library has) gets left = min(x0)/width, top = min(y0)/height,
    right = (width - max(x1))/width, bottom = (height - max(y1))/height,
    the extrema being taken over the blocks, whatever the geometry of the
    blocks is. *)
Theorem get_bounding_box_spec (page : Page) :
  (text_blocks page = [] ->
   get_bounding_box page
   = Ok [("left", NaN); ("top", NaN); ("right", NaN); ("bottom", NaN)]) /\
  (text_blocks page <> [] -> page_extent_ok page ->
   exists x0 y0 x1 y1,
     is_min x0 (map bx0 (text_blocks page)) /\
     is_min y0 (map by0 (text_blocks page)) /\
     is_max x1 (map bx1 (text_blocks page)) /\
     is_max y1 (map by1 (text_blocks page)) /\
     get_bounding_box page
     = Ok [("left", Fin (x0 / width page));
           ("top", Fin (y0 / height page));
           ("right", Fin ((width page - x1) / width page));
           ("bottom", Fin ((height page - y1) / height page))]).
Proof.
  split.
  - apply get_bounding_box_empty.
  - apply get_bounding_box_content.
Qed.

(** ** Collecting margins *)

Lemma rename_inner_outer_bbox (i : nat) (l t r b : pyfloat) :
  rename_inner_outer i [("left", l); ("top", t); ("right", r); ("bottom", b)]
  = Ok (if Nat.eqb ((i + 1) mod 2) 0
        then [("top", t); ("bottom", b); ("inner", l); ("outer", r)]
        else [("top", t); ("bottom", b); ("inner", r); ("outer", l)]).
Proof.
  unfold rename_inner_outer. now destruct (Nat.eqb ((i + 1) mod 2) 0).
Qed.

Lemma margin_of_page_ok (inner_outer : bool) (i : nat) (page : Page) :
  page_extent_ok page ->
  exists l t r b,
    get_bounding_box page
    = Ok [("left", l); ("top", t); ("right", r); ("bottom", b)] /\
    margin_of_page inner_outer i page
    = Ok (if inner_outer
          then if Nat.eqb ((i + 1) mod 2) 0
               then [("top", t); ("bottom", b); ("inner", l); ("outer", r)]
               else [("top", t); ("bottom", b); ("inner", r); ("outer", l)]
          else [("left", l); ("top", t); ("right", r); ("bottom", b)]).
Proof.
  intro Hok. destruct (get_bounding_box_shape page Hok) as (l & t & r & b & H).
  exists l, t, r, b. split; [exact H|].
  unfold margin_of_page. rewrite H. cbn [bind].
  destruct inner_outer; [apply rename_inner_outer_bbox|reflexivity].
Qed.

(** The loop appends one record per retained page, in order. *)
Lemma calculate_margins_loop_spec (exception_list : list Z) (inner_outer : bool)
    (pages : list Page) :
  Forall page_extent_ok pages ->
  forall (s : nat) (acc : list MarginRecord),
  exists recs,
    calculate_margins_loop s pages exception_list inner_outer acc
    = Ok (acc ++ recs)%list /\
    Forall2 (fun ip rec =>
               (s <= fst ip)%nat /\
               nth_error pages (fst ip - s) = Some (snd ip) /\
               margin_of_page inner_outer (fst ip) (snd ip) = Ok rec)
      (retained_from s pages exception_list) recs.
Proof.
  induction 1 as [|page rest Hpage Hrest IH]; intros s acc; simpl.
  - exists []. rewrite app_nil_r. split; [reflexivity|constructor].
  - destruct (excluded s exception_list).
    + destruct (IH (S s) acc) as (recs & Hrun & Hall).
      exists recs. split; [exact Hrun|].
      eapply Forall2_impl; [|exact Hall].
      intros [k p] rec (Hk & Hnth & Hrec). simpl in *.
      repeat split; [lia| |exact Hrec].
      replace (k - s)%nat with (S (k - S s)) by lia. exact Hnth.
    + destruct (margin_of_page_ok inner_outer s page Hpage)
        as (l & t & r & b & _ & Hrec).
      rewrite Hrec. cbn [bind].
      match goal with
      | |- context [calculate_margins_loop _ _ _ _ (acc ++ [?rec])%list] =>
          destruct (IH (S s) (acc ++ [rec])%list) as (recs & Hrun & Hall);
          exists (rec :: recs)
      end.
      split; [rewrite <- app_assoc in Hrun; exact Hrun|].
      constructor.
      * simpl. rewrite Nat.sub_diag. repeat split; [lia|exact Hrec].
      * eapply Forall2_impl; [|exact Hall].
        intros [k p] rec (Hk & Hnth & Hrec'). simpl in *.
        repeat split; [lia| |exact Hrec'].
        replace (k - s)%nat with (S (k - S s)) by lia. exact Hnth.
Qed.

Lemma retained_from_indices (exception_list : list Z) (pages : list Page) :
  forall s,
    map fst (retained_from s pages exception_list)
    = filter (fun i => negb (excluded i exception_list))
        (seq s (List.length pages)).
Proof.
  induction pages as [|page rest IH]; intro s; simpl; [reflexivity|].
  destruct (excluded s exception_list); simpl; now rewrite IH.
Qed.

Lemma filter_split_length {A : Type} (f : A -> bool) (l : list A) :
  (List.length (filter (fun x => negb (f x)) l)
   + List.length (filter f l) = List.length l)%nat.
Proof.
  induction l as [|x l IH]; simpl; [reflexivity|].
  destruct (f x); simpl; lia.
Qed.

Lemma filter_length_bound {A : Type} (f : A -> bool) (l : list A) :
  (List.length (filter f l) <= List.length l)%nat.
Proof.
  induction l as [|x l IH]; simpl; [lia|]. destruct (f x); simpl; lia.
Qed.

Lemma retained_from_length (exception_list : list Z) (pages : list Page) (s : nat) :
  List.length (retained_from s pages exception_list)
  = (List.length pages
     - List.length (filter (fun i => excluded i exception_list)
                      (seq s (List.length pages))))%nat.
Proof.
  rewrite <- (length_map fst), retained_from_indices.
  pose proof (filter_split_length (fun i => excluded i exception_list)
                (seq s (List.length pages))) as H.
  rewrite length_seq in H. lia.
Qed.

(** Only the exclusion entries that are page indices matter. *)
Lemma calculate_margins_loop_ext (exc exc' : list Z) (inner_outer : bool)
    (pages : list Page) :
  forall s acc,
    (forall i, (s <= i < s + List.length pages)%nat ->
               excluded i exc' = excluded i exc) ->
    calculate_margins_loop s pages exc' inner_outer acc
    = calculate_margins_loop s pages exc inner_outer acc.
Proof.
  induction pages as [|page rest IH]; intros s acc Hsame; simpl; [reflexivity|].
  rewrite (Hsame s) by (simpl; lia).
  destruct (excluded s exc).
  - apply IH. intros i Hi. apply Hsame. simpl. lia.
  - destruct (margin_of_page inner_outer s page); simpl; [|reflexivity].
    apply IH. intros i Hi. apply Hsame. simpl. lia.
Qed.

(** The position in the output of the retained page at index [s + k]. *)
Lemma retained_from_nth (exception_list : list Z) (pages : list Page) :
  forall s k page,
    nth_error pages k = Some page ->
    excluded (s + k) exception_list = false ->
    nth_error (retained_from s pages exception_list)
      (k - List.length (filter (fun i => excluded i exception_list) (seq s k)))
    = Some ((s + k)%nat, page).
Proof.
  induction pages as [|q rest IH]; intros s k page Hnth Hex.
  - destruct k; discriminate.
  - destruct k as [|k]; simpl in *.
    + injection Hnth as ->. rewrite Nat.add_0_r in Hex. rewrite Hex.
      simpl. now rewrite Nat.add_0_r.
    + rewrite <- Nat.add_succ_comm in Hex.
      specialize (IH (S s) k page Hnth Hex).
      pose proof (filter_length_bound (fun i => excluded i exception_list)
                    (seq (S s) k)) as Hb.
      rewrite length_seq in Hb.
      destruct (excluded s exception_list); simpl.
      * rewrite <- Nat.add_succ_comm. exact IH.
      * change (match ?n with 0%nat => S k | S l => (k - l)%nat end)
          with (S k - n)%nat.
        rewrite Nat.sub_succ_l by exact Hb. simpl.
        rewrite <- Nat.add_succ_comm. exact IH.
Qed.

Lemma Forall2_nth_error_left {A B : Type} (R : A -> B -> Prop) (l : list A)
    (l' : list B) :
  Forall2 R l l' ->
  forall j a, nth_error l j = Some a ->
              exists b, nth_error l' j = Some b /\ R a b.
Proof.
  induction 1 as [|x y l l' Hxy _ IH]; intros j a Hj.
  - destruct j; discriminate.
  - destruct j as [|j]; simpl in *.
    + injection Hj as <-. now exists y.
    + now apply IH.
Qed.

Lemma mod2_eqb_even (n : nat) : Nat.eqb (n mod 2) 0 = Nat.even n.
Proof.
  pose proof (Nat.mod_upper_bound n 2 ltac:(lia)) as Hlt.
  rewrite (Nat.div_mod_eq n 2) at 2.
  rewrite Nat.add_comm, Nat.even_add_mul_2.
  destruct (n mod 2) as [|[|m]]; simpl; try reflexivity. lia.
Qed.

(** C7: with inner/outer naming, the record of the retained page at
    document index [i] has inner = left and outer = right when [i + 1] is
    even, inner = right and outer = left when [i + 1] is odd; top and bottom
    keep their names and values.  The record sits at position [i] minus the
    number of excluded earlier pages, the parity is the one of [i + 1]
    whatever was excluded.  Every page has a non-empty extent. *)
Theorem inner_outer_follows_document_parity
    (pages : list Page) (exception_list : list Z) (i : nat) (page : Page) :
  Forall page_extent_ok pages ->
  nth_error pages i = Some page ->
  excluded i exception_list = false ->
  exists margins rec l t r b,
    calculate_margins pages exception_list true = Ok margins /\
    nth_error margins (i - excluded_below i exception_list) = Some rec /\
    get_bounding_box page
    = Ok [("left", l); ("top", t); ("right", r); ("bottom", b)] /\
    rec = (if Nat.even (i + 1)
           then [("top", t); ("bottom", b); ("inner", l); ("outer", r)]
           else [("top", t); ("bottom", b); ("inner", r); ("outer", l)]).
Proof.
  intros Hok Hnth Hex.
  destruct (calculate_margins_loop_spec exception_list true pages Hok 0%nat [])
    as (recs & Hrun & Hall).
  pose proof (retained_from_nth exception_list pages 0 i page Hnth Hex) as Hpos.
  destruct (Forall2_nth_error_left _ _ _ Hall _ _ Hpos)
    as (rec & Hrec & _ & _ & Hmargin).
  simpl in Hmargin.
  assert (Hpage : page_extent_ok page).
  { rewrite Forall_forall in Hok. apply Hok. eapply nth_error_In. exact Hnth. }
  destruct (margin_of_page_ok true i page Hpage) as (l & t & r & b & Hbox & Hm).
  rewrite Hm in Hmargin. injection Hmargin as <-.
  exists recs, (if Nat.eqb ((i + 1) mod 2) 0
                then [("top", t); ("bottom", b); ("inner", l); ("outer", r)]
                else [("top", t); ("bottom", b); ("inner", r); ("outer", l)]),
         l, t, r, b.
  repeat split.
  - exact Hrun.
  - exact Hrec.
  - exact Hbox.
  - now rewrite mod2_eqb_even.
Qed.

(** ** Dictionaries *)

Section DictFacts.
Context {V : Type}.
Implicit Types (d : dict V) (k : string) (v : V).

Lemma lookup_in_keys d k : lookup k d <> None <-> In k (keys d).
Proof.
  induction d as [|[k' v'] d IH]; simpl.
  - split; [congruence|tauto].
  - destruct (String.eqb k k') eqn:E.
    + apply String.eqb_eq in E. subst. split; [now left|congruence].
    + apply String.eqb_neq in E. rewrite IH. split; [now right|].
      intros [->|H]; [congruence|exact H].
Qed.

Lemma lookup_not_in_keys d k : ~ In k (keys d) -> lookup k d = None.
Proof.
  intro H. destruct (lookup k d) eqn:E; [|reflexivity].
  exfalso. apply H, lookup_in_keys. congruence.
Qed.

Lemma lookup_setitem_same d k v : lookup k (setitem k v d) = Some v.
Proof.
  induction d as [|[k' v'] d IH]; simpl.
  - now rewrite String.eqb_refl.
  - destruct (String.eqb k k') eqn:E; simpl; rewrite E; [reflexivity|exact IH].
Qed.

Lemma lookup_setitem_other d k k' v :
  k <> k' -> lookup k' (setitem k v d) = lookup k' d.
Proof.
  intro Hne. induction d as [|[k0 v0] d IH]; simpl.
  - apply String.eqb_neq in Hne. rewrite String.eqb_sym in Hne. now rewrite Hne.
  - destruct (String.eqb k k0) eqn:E; simpl.
    + apply String.eqb_eq in E. subst k0.
      destruct (String.eqb k' k) eqn:E'; [|reflexivity].
      apply String.eqb_eq in E'. congruence.
    + now rewrite IH.
Qed.

Lemma keys_setitem_present d k v :
  lookup k d <> None -> keys (setitem k v d) = keys d.
Proof.
  induction d as [|[k' v'] d IH]; simpl; [congruence|].
  destruct (String.eqb k k') eqn:E; simpl; [reflexivity|].
  intro H. f_equal. now apply IH.
Qed.

Lemma keys_setitem_absent d k v :
  lookup k d = None -> keys (setitem k v d) = (keys d ++ [k])%list.
Proof.
  induction d as [|[k' v'] d IH]; simpl; [reflexivity|].
  destruct (String.eqb k k') eqn:E; simpl; [congruence|].
  intro H. f_equal. now apply IH.
Qed.

Lemma getitem_ok d k v : lookup k d = Some v -> getitem d k = Ok v.
Proof. unfold getitem. now intros ->. Qed.

Lemma getitem_missing d k : lookup k d = None -> getitem d k = Raise (KeyError k).
Proof. unfold getitem. now intros ->. Qed.
End DictFacts.

Lemma option_map_app_nil {A : Type} (o : option (list A)) :
  option_map (fun l => l ++ [])%list o = o.
Proof. destruct o; simpl; [now rewrite app_nil_r|reflexivity]. Qed.

(** ** Bad cuts *)

Lemma empty_bad_cuts_fold (ks : list string) :
  forall acc : dict (list nat),
    NoDup (keys acc ++ ks) ->
    let bad := fold_left (fun bad_cuts key => setitem key [] bad_cuts) ks acc in
    keys bad = (keys acc ++ ks)%list /\
    forall k, lookup k bad = if in_dec string_dec k ks then Some [] else lookup k acc.
Proof.
  induction ks as [|key ks IH]; intros acc Hnd; simpl.
  - rewrite app_nil_r. split; [reflexivity|]. intro k. reflexivity.
  - assert (Hkey : lookup key acc = None).
    { apply lookup_not_in_keys. intro Hin.
      apply NoDup_remove_2 in Hnd. apply Hnd, in_or_app. now left. }
    destruct (IH (setitem key [] acc)) as [Hk Hl].
    { rewrite keys_setitem_absent, <- app_assoc by exact Hkey. exact Hnd. }
    split.
    + rewrite Hk, keys_setitem_absent, <- app_assoc by exact Hkey. reflexivity.
    + intro k. rewrite Hl.
      destruct (in_dec string_dec k ks) as [Hin|Hnin].
      * destruct (string_dec key k); reflexivity.
      * destruct (string_dec key k) as [<-|Hne].
        -- apply lookup_setitem_same.
        -- now apply lookup_setitem_other.
Qed.

Lemma empty_bad_cuts_spec (margin_threshold : dict pyfloat) :
  is_dict margin_threshold ->
  keys (empty_bad_cuts margin_threshold) = keys margin_threshold /\
  forall k, lookup k margin_threshold <> None ->
            lookup k (empty_bad_cuts margin_threshold) = Some [].
Proof.
  intro Hnd. unfold empty_bad_cuts.
  destruct (empty_bad_cuts_fold (keys margin_threshold) []) as [Hk Hl];
    [exact Hnd|].
  split; [exact Hk|].
  intros k Hin. rewrite Hl. apply lookup_in_keys in Hin.
  now destruct (in_dec string_dec k (keys margin_threshold)).
Qed.

Section BadCuts.
Variable margin_threshold : dict pyfloat.

Lemma bad_cuts_ready_keys (bad bad' : dict (list nat)) :
  keys bad' = keys bad ->
  bad_cuts_ready margin_threshold bad -> bad_cuts_ready margin_threshold bad'.
Proof.
  intros Hk Hr k Hin. apply lookup_in_keys. rewrite Hk.
  apply lookup_in_keys. now apply Hr.
Qed.

(** One record, all of whose keys have a threshold: the index is appended
    to the list of each key whose value is below the threshold. *)
Lemma bad_cuts_keys_spec (i : nat) (margin : MarginRecord) (ks : list string) :
  NoDup ks ->
  (forall k, In k ks -> lookup k margin <> None /\ lookup k margin_threshold <> None) ->
  forall bad,
    bad_cuts_ready margin_threshold bad ->
    exists bad',
      bad_cuts_keys i margin ks margin_threshold bad = Ok bad' /\
      keys bad' = keys bad /\
      (forall k, ~ In k ks -> lookup k bad' = lookup k bad) /\
      (forall k t, In k ks -> lookup k margin_threshold = Some t ->
         lookup k bad'
         = option_map (fun l => l ++ (if is_below k t margin then [i] else []))%list
             (lookup k bad)).
Proof.
  induction 1 as [|key ks Hnin Hnd IH]; intros Hks bad Hready.
  - exists bad. simpl. repeat split; try reflexivity. intros k t [].
  - destruct (Hks key (or_introl eq_refl)) as [Hm Ht].
    destruct (lookup key margin) as [v|] eqn:Ev; [clear Hm|congruence].
    destruct (lookup key margin_threshold) as [t|] eqn:Et; [clear Ht|congruence].
    assert (Hks' : forall k, In k ks ->
                     lookup k margin <> None /\ lookup k margin_threshold <> None).
    { intros k Hk. apply Hks. now right. }
    simpl. rewrite (getitem_ok _ _ _ Ev), (getitem_ok _ _ _ Et). cbn [bind].
    destruct (flt v t) eqn:Ef.
    + destruct (lookup key bad) as [l|] eqn:Eb.
      2:{ exfalso. apply (Hready key); [congruence|exact Eb]. }
      rewrite (getitem_ok _ _ _ Eb). cbn [bind].
      assert (Hkeys : keys (setitem key (l ++ [i])%list bad) = keys bad).
      { apply keys_setitem_present. congruence. }
      destruct (IH Hks' (setitem key (l ++ [i])%list bad))
        as (bad' & Hrun & Hk & Hout & Hin).
      { eapply bad_cuts_ready_keys; eassumption. }
      exists bad'. split; [exact Hrun|]. split; [congruence|]. split.
      * intros k Hk'. rewrite Hout by (intro; apply Hk'; now right).
        apply lookup_setitem_other. intros ->. apply Hk'. now left.
      * intros k t' [<-|Hk'] Ht'.
        -- rewrite Hout by exact Hnin. rewrite lookup_setitem_same, Eb. simpl.
           unfold is_below. rewrite Ev. replace t' with t by congruence.
           now rewrite Ef.
        -- rewrite (Hin k t' Hk' Ht'). f_equal.
           apply lookup_setitem_other. intros ->. contradiction.
    + destruct (IH Hks' bad Hready) as (bad' & Hrun & Hk & Hout & Hin).
      exists bad'. split; [exact Hrun|]. split; [exact Hk|]. split.
      * intros k Hk'. apply Hout. intro; apply Hk'; now right.
      * intros k t' [<-|Hk'] Ht'.
        -- rewrite Hout by exact Hnin.
           unfold is_below. rewrite Ev. replace t' with t by congruence.
           rewrite Ef. symmetry. apply option_map_app_nil.
        -- now apply Hin.
Qed.

(** All records: each threshold key collects the indices below it. *)
Lemma bad_cuts_loop_spec (margins : list MarginRecord) :
  Forall is_dict margins ->
  thresholds_cover margin_threshold margins ->
  forall s bad,
    bad_cuts_ready margin_threshold bad ->
    exists bad',
      bad_cuts_loop s margins margin_threshold bad = Ok bad' /\
      keys bad' = keys bad /\
      forall k t, lookup k margin_threshold = Some t ->
        lookup k bad'
        = option_map (fun l => l ++ below_from s k t margins)%list (lookup k bad).
Proof.
  induction margins as [|margin rest IH]; intros Hd Hc s bad Hready.
  - exists bad. simpl. repeat split; try reflexivity.
    intros k t _. symmetry. apply option_map_app_nil.
  - inversion Hd as [|? ? Hnd Hd']; subst.
    inversion Hc as [|? ? Hcov Hc']; subst.
    destruct (bad_cuts_keys_spec s margin (keys margin) Hnd) with (bad := bad)
      as (bad1 & Hrun1 & Hk1 & Hout1 & Hin1).
    { intros k Hk. split; [now apply lookup_in_keys|now apply Hcov]. }
    { exact Hready. }
    destruct (IH Hd' Hc' (S s) bad1) as (bad' & Hrun & Hk & Hl).
    { eapply bad_cuts_ready_keys; eassumption. }
    exists bad'. simpl. rewrite Hrun1. cbn [bind].
    split; [exact Hrun|]. split; [congruence|].
    intros k t Ht. rewrite (Hl k t Ht).
    assert (H1 : lookup k bad1
                 = option_map
                     (fun l => l ++ (if is_below k t margin then [s] else []))%list
                     (lookup k bad)).
    { destruct (in_dec string_dec k (keys margin)) as [Hin|Hnin].
      - now apply Hin1.
      - rewrite (Hout1 k Hnin). unfold is_below.
        rewrite (lookup_not_in_keys _ _ Hnin). symmetry. apply option_map_app_nil. }
    rewrite H1. destruct (lookup k bad) as [l|]; simpl; [|reflexivity].
    f_equal. rewrite <- app_assoc. f_equal.
    now destruct (is_below k t margin).
Qed.

(** A record key without a threshold stops the scan of that record with a
    [KeyError] for the first such key. *)
Lemma bad_cuts_keys_progress (i : nat) (margin : MarginRecord) (ks : list string) :
  (forall k, In k ks -> lookup k margin <> None) ->
  forall bad,
    bad_cuts_ready margin_threshold bad ->
    (exists bad',
        bad_cuts_keys i margin ks margin_threshold bad = Ok bad' /\
        bad_cuts_ready margin_threshold bad' /\
        forall k, In k ks -> lookup k margin_threshold <> None) \/
    (exists k,
        bad_cuts_keys i margin ks margin_threshold bad = Raise (KeyError k) /\
        In k ks /\ lookup k margin_threshold = None).
Proof.
  induction ks as [|key ks IH]; intros Hks bad Hready.
  - left. exists bad. simpl. repeat split; [exact Hready|]. intros k [].
  - assert (Hm := Hks key (or_introl eq_refl)).
    destruct (lookup key margin) as [v|] eqn:Ev; [clear Hm|congruence].
    simpl. rewrite (getitem_ok _ _ _ Ev). cbn [bind].
    destruct (lookup key margin_threshold) as [t|] eqn:Et.
    + rewrite (getitem_ok _ _ _ Et). cbn [bind].
      assert (Hstep : exists bad1,
                 (if flt v t
                  then l <- getitem bad key ;; Ok (setitem key (l ++ [i])%list bad)
                  else Ok bad) = Ok bad1 /\
                 bad_cuts_ready margin_threshold bad1).
      { destruct (flt v t).
        - destruct (lookup key bad) as [l|] eqn:Eb.
          2:{ exfalso. apply (Hready key); [congruence|exact Eb]. }
          rewrite (getitem_ok _ _ _ Eb). cbn [bind]. eexists. split; [reflexivity|].
          eapply bad_cuts_ready_keys; [|exact Hready].
          apply keys_setitem_present. congruence.
        - now exists bad. }
      destruct Hstep as (bad1 & -> & Hready1). cbn [bind].
      destruct (IH (fun k Hk => Hks k (or_intror Hk)) bad1 Hready1)
        as [(bad' & Hrun & Hr & Hall)|(k & Hrun & Hk & Hnone)].
      * left. exists bad'. repeat split; [exact Hrun|exact Hr|].
        intros k [<-|Hk]; [congruence|now apply Hall].
      * right. exists k. repeat split; [exact Hrun|now right|exact Hnone].
    + right. exists key. rewrite (getitem_missing _ _ Et). cbn [bind].
      repeat split; [now left|exact Et].
Qed.

Lemma bad_cuts_loop_key_error (margins : list MarginRecord) :
  (exists margin k, In margin margins /\ In k (keys margin) /\
                    lookup k margin_threshold = None) ->
  forall s bad,
    bad_cuts_ready margin_threshold bad ->
    exists k,
      bad_cuts_loop s margins margin_threshold bad = Raise (KeyError k) /\
      lookup k margin_threshold = None /\
      exists margin, In margin margins /\ In k (keys margin).
Proof.
  induction margins as [|margin rest IH]; intros (m & k & Hm & Hk & Hnone) s bad Hready.
  - destruct Hm.
  - simpl.
    destruct (bad_cuts_keys_progress s margin (keys margin)) with (bad := bad)
      as [(bad' & Hrun & Hr & Hall)|(k' & Hrun & Hk' & Hnone')].
    { intros k0 Hk0. now apply lookup_in_keys. }
    { exact Hready. }
    + rewrite Hrun. cbn [bind].
      destruct Hm as [<-|Hm]; [exfalso; now apply (Hall k)|].
      destruct (IH (ex_intro _ m (ex_intro _ k (conj Hm (conj Hk Hnone))))
                  (S s) bad' Hr) as (k' & Hrun' & Hnone' & m' & Hm' & Hk').
      exists k'. repeat split; [exact Hrun'|exact Hnone'|].
      exists m'. split; [now right|exact Hk'].
    + rewrite Hrun. cbn [bind]. exists k'. repeat split; [exact Hnone'|].
      exists margin. split; [now left|exact Hk'].
Qed.
End BadCuts.

Lemma below_from_spec (k : string) (t : pyfloat) (margins : list MarginRecord) :
  forall s i,
    In i (below_from s k t margins) <->
    (s <= i)%nat /\
    exists rec v, nth_error margins (i - s) = Some rec /\
                  lookup k rec = Some v /\ flt v t = true.
Proof.
  induction margins as [|margin rest IH]; intros s i; simpl.
  - split; [tauto|]. intros (_ & rec & v & H & _). destruct (i - s)%nat; discriminate.
  - assert (Hrest : In i (below_from (S s) k t rest) <->
                    (s < i)%nat /\
                    exists rec v, nth_error (margin :: rest) (i - s) = Some rec /\
                                  lookup k rec = Some v /\ flt v t = true).
    { rewrite IH. split.
      - intros (Hle & rec & v & Hn & H). split; [lia|]. exists rec, v.
        replace (i - s)%nat with (S (i - S s)) by lia. now split.
      - intros (Hlt & rec & v & Hn & H). split; [lia|]. exists rec, v.
        replace (i - s)%nat with (S (i - S s)) in Hn by lia. now split. }
    assert (Hhead : is_below k t margin = true <->
                    exists v, lookup k margin = Some v /\ flt v t = true).
    { unfold is_below. destruct (lookup k margin) as [v|].
      - split; [intro H; now exists v|]. intros (v' & Hv & H). congruence.
      - split; [discriminate|]. intros (v' & Hv & _). discriminate. }
    destruct (is_below k t margin) eqn:E; simpl; rewrite Hrest.
    + split.
      * intros [<-|(Hlt & H)].
        -- split; [lia|]. rewrite Nat.sub_diag.
           destruct (proj1 Hhead eq_refl) as (v & Hv & Hf). now exists margin, v.
        -- split; [lia|exact H].
      * intros (Hle & rec & v & Hn & H).
        destruct (Nat.eq_dec s i) as [->|Hne]; [now left|right].
        split; [lia|]. now exists rec, v.
    + split.
      * intros (Hlt & H). split; [lia|exact H].
      * intros (Hle & rec & v & Hn & Hv & Hf).
        destruct (Nat.eq_dec s i) as [->|Hne].
        -- rewrite Nat.sub_diag in Hn. injection Hn as <-.
           assert (false = true) by (apply Hhead; now exists v). discriminate.
        -- split; [lia|]. now exists rec, v.
Qed.

Lemma below_from_sorted (k : string) (t : pyfloat) (margins : list MarginRecord) :
  forall s, StronglySorted lt (below_from s k t margins).
Proof.
  induction margins as [|margin rest IH]; intro s; simpl; [constructor|].
  destruct (is_below k t margin); [|apply IH].
  constructor; [apply IH|].
  apply Forall_forall. intros i Hi. apply below_from_spec in Hi. lia.
Qed.

Lemma empty_bad_cuts_ready (margin_threshold : dict pyfloat) :
  bad_cuts_ready margin_threshold (empty_bad_cuts margin_threshold).
Proof.
  unfold bad_cuts_ready, empty_bad_cuts.
  assert (H : forall (ks : list string) (acc : dict (list nat)) k,
             In k ks \/ lookup k acc <> None ->
             lookup k (fold_left (fun bad_cuts key => setitem key [] bad_cuts) ks acc)
             <> None).
  { induction ks as [|key ks IH]; intros acc k Hk; simpl.
    - destruct Hk as [[]|Hk]; exact Hk.
    - apply IH. destruct (string_dec key k) as [<-|Hne].
      + right. rewrite lookup_setitem_same. discriminate.
      + destruct Hk as [[Heq|Hin]|Hacc]; [congruence|now left|right].
        now rewrite lookup_setitem_other. }
  intros k Hk. apply H. left. now apply lookup_in_keys.
Qed.

(** C8 (amended): for records that are dicts and a threshold dict that has
    an entry for every key occurring in the records, the result maps each
    threshold key to the increasing list of the 0-based indices of the
    records whose value for the key is strictly below the threshold; a
    record whose value for a key is NaN is never in the list of that key. *)
Theorem bad_cuts_flag_records_below_threshold
    (margins : list MarginRecord) (margin_threshold : dict pyfloat) :
  Forall is_dict margins ->
  is_dict margin_threshold ->
  thresholds_cover margin_threshold margins ->
  flags_records_below margins margin_threshold /\
  (forall bad_cuts k l i rec,
      get_bad_cuts_with_margin margins margin_threshold = Ok bad_cuts ->
      lookup k bad_cuts = Some l ->
      nth_error margins i = Some rec ->
      lookup k rec = Some NaN ->
      ~ In i l).
Proof.
  intros Hd Hthr Hcov.
  destruct (empty_bad_cuts_spec margin_threshold Hthr) as [Hk0 Hl0].
  destruct (bad_cuts_loop_spec margin_threshold margins Hd Hcov 0%nat
              (empty_bad_cuts margin_threshold))
    as (bad & Hrun & Hk & Hl).
  { apply empty_bad_cuts_ready. }
  assert (Hflags : forall k t, lookup k margin_threshold = Some t ->
            lookup k bad = Some (below_from 0 k t margins)).
  { intros k t Ht. rewrite (Hl k t Ht), Hl0 by congruence. reflexivity. }
  split.
  - exists bad. split; [exact Hrun|]. split; [congruence|].
    intros k t Ht. exists (below_from 0 k t margins).
    split; [now apply Hflags|]. split; [apply below_from_sorted|].
    intro i. rewrite below_from_spec, Nat.sub_0_r.
    split; [tauto|]. intro H. split; [lia|exact H].
  - intros bad' k l i rec Hrun' Hlk Hnth Hnan Hin.
    unfold get_bad_cuts_with_margin in Hrun'.
    rewrite Hrun in Hrun'. injection Hrun' as <-.
    assert (Hkin : lookup k margin_threshold <> None).
    { apply lookup_in_keys. rewrite <- Hk0, <- Hk. apply lookup_in_keys. congruence. }
    destruct (lookup k margin_threshold) as [t|] eqn:Et; [|congruence].
    rewrite (Hflags k t Et) in Hlk. injection Hlk as <-.
    apply below_from_spec in Hin. rewrite Nat.sub_0_r in Hin.
    destruct Hin as (_ & rec' & v & Hnth' & Hv & Hf).
    assert (rec' = rec) by congruence. subst rec'.
    assert (v = NaN) by congruence. subst v. discriminate.
Qed.

(** C8, as stated, fails when a record has a key without a threshold:
    records named by inner/outer against thresholds named by left/right
    produce no mapping at all. *)
Lemma bad_cuts_uncovered_key_counterexample :
  is_dict inner_outer_record /\
  is_dict left_right_thresholds /\
  get_bad_cuts_with_margin [inner_outer_record] left_right_thresholds
  = Raise (KeyError "inner") /\
  ~ flags_records_below [inner_outer_record] left_right_thresholds.
Proof.
  assert (Hrun : get_bad_cuts_with_margin [inner_outer_record] left_right_thresholds
                 = Raise (KeyError "inner")) by reflexivity.
  split; [|split; [|split]].
  - unfold is_dict. simpl. repeat constructor; simpl; intuition discriminate.
  - unfold is_dict. simpl. repeat constructor; simpl; intuition discriminate.
  - exact Hrun.
  - intros (bad & H & _). rewrite Hrun in H. discriminate.
Qed.

(** C10: when some record has a non-NaN value under a key that the
    threshold mapping lacks, the call raises [KeyError]; the key it names
    is a key of some record that is absent from the threshold mapping. *)
Theorem bad_cuts_key_error_on_uncovered_key
    (margins : list MarginRecord) (margin_threshold : dict pyfloat) :
  (exists i rec k v,
      nth_error margins i = Some rec /\ lookup k rec = Some v /\
      isnan v = false /\ lookup k margin_threshold = None) ->
  exists k',
    get_bad_cuts_with_margin margins margin_threshold = Raise (KeyError k') /\
    lookup k' margin_threshold = None /\
    exists rec, In rec margins /\ In k' (keys rec).
Proof.
  intros (i & rec & k & v & Hnth & Hv & _ & Hnone).
  apply bad_cuts_loop_key_error.
  - exists rec, k. repeat split.
    + eapply nth_error_In. exact Hnth.
    + apply lookup_in_keys. congruence.
    + exact Hnone.
  - apply empty_bad_cuts_ready.
Qed.

(** ** Crop solving *)

Lemma Qeq_bool_false (x y : Q) : ~ x == y -> Qeq_bool x y = false.
Proof.
  intro H. destruct (Qeq_bool x y) eqn:E; [|reflexivity].
  apply Qeq_bool_iff in E. contradiction.
Qed.


Lemma Qabs_le_zero (x y : Q) : Qabs x <= Qabs y -> y == 0 -> x == 0.
Proof.
  intros Hle Hy. rewrite Hy in Hle. simpl in Hle.
  apply Qabs_Qle_condition in Hle. lra.
Qed.

Lemma det_sum (d0 d1 : Q) : det d0 d1 == 1 - d0 - d1.
Proof. unfold det. ring. Qed.

(** A regular 2x2 system gets its solution. *)
Lemma np_linalg_solve_regular (a00 a01 a10 a11 b0 b1 : Q) :
  ~ a00 * a11 - a01 * a10 == 0 ->
  exists x0 x1,
    np_linalg_solve ((a00, a01), (a10, a11)) (b0, b1) = Ok (x0, x1) /\
    a00 * x0 + a01 * x1 == b0 /\
    a10 * x0 + a11 * x1 == b1.
Proof.
  intro Hdet. unfold np_linalg_solve.
  destruct (Qltb (Qabs a00) (Qabs a10)) eqn:Epiv.
  - apply Qltb_lt in Epiv.
    assert (Hp : ~ a10 == 0).
    { intro H. rewrite H in Epiv. simpl in Epiv.
      pose proof (Qabs_nonneg a00). lra. }
    rewrite (Qeq_bool_false _ _ Hp).
    assert (Hu : ~ a01 - a00 / a10 * a11 == 0).
    { intro H.
      assert (Hd : a00 * a11 - a01 * a10 == - ((a01 - a00 / a10 * a11) * a10))
        by (field; exact Hp).
      apply Hdet. rewrite Hd, H. ring. }
    rewrite (Qeq_bool_false _ _ Hu).
    eexists; eexists. split; [reflexivity|].
    split; field; (split; [exact Hp|intro H; apply Hdet; lra]).
  - apply Qltb_ge in Epiv.
    assert (Hp : ~ a00 == 0).
    { intro H. apply Hdet. rewrite (Qabs_le_zero _ _ Epiv H), H. ring. }
    rewrite (Qeq_bool_false _ _ Hp).
    assert (Hu : ~ a11 - a10 / a00 * a01 == 0).
    { intro H.
      assert (Hd : a00 * a11 - a01 * a10 == (a11 - a10 / a00 * a01) * a00)
        by (field; exact Hp).
      apply Hdet. rewrite Hd, H. ring. }
    rewrite (Qeq_bool_false _ _ Hu).
    eexists; eexists. split; [reflexivity|].
    split; field; (split; [exact Hp|intro H; apply Hdet; lra]).
Qed.


Lemma solve_margin_to_cut_values (margins desired_margins : dict Q)
    (margin_keys : string * string) (m0 m1 d0 d1 : Q) :
  axis_values margins desired_margins margin_keys = Some (m0, m1, d0, d1) ->
  solve_margin_to_cut margins desired_margins margin_keys
  = np_linalg_solve ((d0 - 1, d0), (d1, d1 - 1)) (d0 - m0, d1 - m1).
Proof.
  unfold axis_values, solve_margin_to_cut. destruct margin_keys as [k0 k1]. simpl.
  unfold getitem.
  destruct (lookup k0 margins); [|discriminate].
  destruct (lookup k1 margins); [|discriminate].
  destruct (lookup k0 desired_margins); [|discriminate].
  destruct (lookup k1 desired_margins); [|discriminate].
  intro H. injection H as -> -> -> ->. reflexivity.
Qed.

Lemma solve_margin_to_cut_regular (margins desired_margins : dict Q)
    (margin_keys : string * string) (m0 m1 d0 d1 : Q) :
  axis_values margins desired_margins margin_keys = Some (m0, m1, d0, d1) ->
  ~ det d0 d1 == 0 ->
  exists c0 c1,
    solve_margin_to_cut margins desired_margins margin_keys = Ok (c0, c1) /\
    (d0 - 1) * c0 + d0 * c1 == d0 - m0 /\
    d1 * c0 + (d1 - 1) * c1 == d1 - m1.
Proof.
  intros Hv Hdet. rewrite (solve_margin_to_cut_values _ _ _ _ _ _ _ Hv).
  apply np_linalg_solve_regular. exact Hdet.
Qed.











(** ** Sorting *)

Lemma insert_sorted_perm (x : Q) (l : list Q) : Permutation (insert_sorted x l) (x :: l).
Proof.
  induction l as [|y l IH]; simpl; [reflexivity|].
  destruct (Qle_bool x y); [reflexivity|].
  rewrite IH. apply perm_swap.
Qed.

Lemma np_sort_perm (l : list Q) : Permutation (np_sort l) l.
Proof.
  induction l as [|x l IH]; simpl; [reflexivity|].
  rewrite insert_sorted_perm. now constructor.
Qed.

Lemma np_sort_length (l : list Q) : List.length (np_sort l) = List.length l.
Proof. apply Permutation_length, np_sort_perm. Qed.

Lemma insert_sorted_sorted (x : Q) (l : list Q) :
  StronglySorted Qle l -> StronglySorted Qle (insert_sorted x l).
Proof.
  induction 1 as [|y l Hs IH Hall]; simpl.
  - repeat constructor.
  - destruct (Qle_bool x y) eqn:E.
    + apply Qle_bool_iff in E. constructor; [now constructor|].
      constructor; [exact E|].
      eapply Forall_impl; [|exact Hall]. intros z Hz. now apply Qle_trans with y.
    + assert (Hyx : y <= x).
      { apply Qlt_le_weak, Qnot_le_lt. intro H. apply Qle_bool_iff in H. congruence. }
      constructor; [exact IH|].
      eapply Permutation_Forall; [symmetry; apply insert_sorted_perm|].
      now constructor.
Qed.

Lemma np_sort_sorted (l : list Q) : StronglySorted Qle (np_sort l).
Proof.
  induction l as [|x l IH]; simpl; [constructor|now apply insert_sorted_sorted].
Qed.

Lemma sorted_nth_le (l : list Q) :
  StronglySorted Qle l ->
  forall i j, (i <= j < List.length l)%nat -> nth i l 0 <= nth j l 0.
Proof.
  induction 1 as [|x l Hs IH Hall]; intros i j Hij; simpl in *; [lia|].
  destruct i as [|i], j as [|j]; try lia.
  - apply Qle_refl.
  - rewrite Forall_forall in Hall. apply Hall, nth_In. lia.
  - apply IH. lia.
Qed.

(** ** Interpolation *)

Lemma Qfloor_bounds (h : Q) (lo hi : Z) :
  inject_Z lo <= h -> h <= inject_Z hi -> (lo <= Qfloor h <= hi)%Z.
Proof.
  intros Hlo Hhi. split.
  - rewrite <- (Qfloor_Z lo). now apply Qfloor_resp_le.
  - rewrite <- (Qfloor_Z hi). now apply Qfloor_resp_le.
Qed.

Lemma Qfloor_unique (h : Q) (k : Z) :
  inject_Z k <= h -> h < inject_Z (k + 1) -> Qfloor h = k.
Proof.
  intros Hlo Hhi.
  pose proof (Qfloor_le h) as H1. pose proof (Qlt_floor h) as H2.
  assert (Qfloor h < k + 1)%Z by (rewrite Zlt_Qlt; eapply Qle_lt_trans; eassumption).
  assert (k < Qfloor h + 1)%Z by (rewrite Zlt_Qlt; eapply Qle_lt_trans; eassumption).
  lia.
Qed.

(** Interpolation in a sorted array is monotone in the virtual index. *)
Lemma lerp_at_monotone (arr : list Q) (h1 h2 : Q) :
  StronglySorted Qle arr ->
  0 <= h1 -> h1 <= h2 -> h2 <= inject_Z (Z.of_nat (List.length arr) - 1) ->
  lerp_at arr h1 <= lerp_at arr h2.
Proof.
  intros Hs H0 H12 Hn.
  assert (Hlen : (0 < List.length arr)%nat).
  { destruct arr; simpl; [|lia]. simpl in Hn.
    assert (h2 <= -1) by exact Hn. lra. }
  set (n := Z.of_nat (List.length arr)) in *.
  assert (Hf1 : (0 <= Qfloor h1 <= n - 1)%Z).
  { apply Qfloor_bounds; [exact H0|lra]. }
  assert (Hf2 : (0 <= Qfloor h2 <= n - 1)%Z).
  { apply Qfloor_bounds; [change (inject_Z 0) with 0; lra|exact Hn]. }
  assert (Hf12 : (Qfloor h1 <= Qfloor h2)%Z) by now apply Qfloor_resp_le.
  pose proof (Qfloor_le h1) as G1. pose proof (Qlt_floor h1) as G1'.
  pose proof (Qfloor_le h2) as G2. pose proof (Qlt_floor h2) as G2'.
  rewrite inject_Z_plus in G1', G2'. change (inject_Z 1) with 1 in G1', G2'.
  unfold lerp_at. fold n.
  set (clip := fun z : Z => Z.to_nat (Z.max 0 (Z.min z (n - 1)))).
  assert (Hclip : forall z1 z2, (z1 <= z2)%Z ->
             nth (clip z1) arr 0 <= nth (clip z2) arr 0).
  { intros z1 z2 Hz. apply sorted_nth_le; [exact Hs|]. unfold clip, n. lia. }
  set (a1 := nth (clip (Qfloor h1)) arr 0).
  set (b1 := nth (clip (Qfloor h1 + 1)%Z) arr 0).
  set (a2 := nth (clip (Qfloor h2)) arr 0).
  set (b2 := nth (clip (Qfloor h2 + 1)%Z) arr 0).
  assert (Hab1 : a1 <= b1) by (apply Hclip; lia).
  assert (Hab2 : a2 <= b2) by (apply Hclip; lia).
  set (g1 := h1 - inject_Z (Qfloor h1)).
  set (g2 := h2 - inject_Z (Qfloor h2)).
  change (a1 + (b1 - a1) * g1 <= a2 + (b2 - a2) * g2).
  assert (Hg1 : 0 <= g1 /\ g1 <= 1) by (unfold g1; split; lra).
  assert (Hg2 : 0 <= g2 /\ g2 <= 1) by (unfold g2; split; lra).
  destruct (Z.eq_dec (Qfloor h1) (Qfloor h2)) as [Heq|Hne].
  - assert (a2 = a1) by (unfold a1, a2; now rewrite Heq).
    assert (b2 = b1) by (unfold b1, b2; now rewrite Heq).
    assert (Hg12 : g1 <= g2) by (unfold g1, g2; rewrite Heq; lra).
    clearbody a1 b1 a2 b2 g1 g2. subst a2 b2.
    assert ((b1 - a1) * g1 <= (b1 - a1) * g2).
    { rewrite !(Qmult_comm (b1 - a1)). apply Qmult_le_compat_r; lra. }
    lra.
  - assert (Hmid : b1 <= a2) by (apply Hclip; lia).
    clearbody a1 b1 a2 b2 g1 g2.
    assert ((b1 - a1) * g1 <= (b1 - a1) * 1).
    { rewrite !(Qmult_comm (b1 - a1)). apply Qmult_le_compat_r; lra. }
    assert (0 <= (b2 - a2) * g2) by (apply Qmult_le_0_compat; lra).
    lra.
Qed.

(** ** Percentiles and the median *)

Lemma np_percentile_lerp (data : list Q) (q : Q) :
  data <> [] ->
  np_percentile data q
  = Fin (lerp_at (np_sort data) (virtual_index (List.length data) q)).
Proof.
  intro Hne. unfold np_percentile, lerp_at, virtual_index.
  rewrite np_sort_length.
  destruct (np_sort data) eqn:E; [|reflexivity].
  exfalso. apply Hne. apply length_zero_iff_nil.
  now rewrite <- np_sort_length, E.
Qed.

Lemma virtual_index_range (n : nat) (q : Q) :
  (0 < n)%nat -> 0 <= q -> q <= 100 ->
  0 <= virtual_index n q /\ virtual_index n q <= inject_Z (Z.of_nat n - 1).
Proof.
  intros Hn H0 H100. unfold virtual_index.
  assert (HN : 0 <= inject_Z (Z.of_nat n - 1)).
  { change 0 with (inject_Z 0). rewrite <- Zle_Qle. lia. }
  set (N := inject_Z (Z.of_nat n - 1)) in *. clearbody N.
  assert (Hq : 0 <= q / 100 /\ q / 100 <= 1).
  { split.
    - apply Qle_shift_div_l; [reflexivity|lra].
    - apply Qle_shift_div_r; [reflexivity|lra]. }
  split.
  - apply Qmult_le_0_compat; tauto.
  - rewrite <- (Qmult_1_r N) at 2. rewrite !(Qmult_comm N).
    apply Qmult_le_compat_r; tauto.
Qed.

Lemma virtual_index_monotone (n : nat) (q q' : Q) :
  (0 < n)%nat -> q <= q' -> virtual_index n q <= virtual_index n q'.
Proof.
  intros Hn Hq. unfold virtual_index.
  assert (HN : 0 <= inject_Z (Z.of_nat n - 1)).
  { change 0 with (inject_Z 0). rewrite <- Zle_Qle. lia. }
  rewrite !(Qmult_comm (inject_Z _)). apply Qmult_le_compat_r; [|exact HN].
  unfold Qdiv. apply Qmult_le_compat_r; [exact Hq|discriminate].
Qed.

(** The median is the interpolated value at the 50th percentile. *)
Lemma median_lerp (arr : list Q) :
  arr <> [] ->
  let n := List.length arr in
  (if Nat.odd n then nth (n / 2) arr 0
   else (nth (n / 2 - 1) arr 0 + nth (n / 2) arr 0) / 2)
  == lerp_at arr (virtual_index n 50).
Proof.
  intros Hne n.
  assert (Hn : (0 < n)%nat).
  { unfold n. destruct arr; [congruence|simpl; lia]. }
  destruct (Nat.odd n) eqn:Eodd.
  - apply Nat.odd_spec in Eodd. destruct Eodd as [k Hk].
    assert (Hdiv : (n / 2 = k)%nat)
      by (symmetry; apply Nat.div_unique with 1%nat; lia).
    assert (Hh : virtual_index n 50 == inject_Z (Z.of_nat k)).
    { unfold virtual_index.
      replace (Z.of_nat n - 1)%Z with (2 * Z.of_nat k)%Z by lia.
      rewrite inject_Z_mult. change (inject_Z 2) with 2. field. }
    assert (Hfl : Qfloor (virtual_index n 50) = Z.of_nat k).
    { apply Qfloor_unique; rewrite Hh; [apply Qle_refl|].
      rewrite <- Zlt_Qlt. lia. }
    unfold lerp_at. fold n. rewrite Hfl, Hdiv.
    replace (Z.to_nat (Z.max 0 (Z.min (Z.of_nat k) (Z.of_nat n - 1)))) with k by lia.
    rewrite Hh. ring.
  - assert (Heven : Nat.even n = true) by (now rewrite <- Nat.negb_odd, Eodd).
    apply Nat.even_spec in Heven. destruct Heven as [k Hk].
    assert (Hdiv : (n / 2 = k)%nat)
      by (symmetry; apply Nat.div_unique with 0%nat; lia).
    assert (Hh : virtual_index n 50 == inject_Z (Z.of_nat k - 1) + (1 # 2)).
    { unfold virtual_index.
      replace (Z.of_nat n - 1)%Z with (2 * (Z.of_nat k - 1) + 1)%Z by lia.
      rewrite inject_Z_plus, inject_Z_mult.
      change (inject_Z 2) with 2. change (inject_Z 1) with 1. field. }
    assert (Hfl : Qfloor (virtual_index n 50) = (Z.of_nat k - 1)%Z).
    { apply Qfloor_unique; rewrite Hh, ?inject_Z_plus.
      - lra.
      - change (inject_Z 1) with 1. lra. }
    unfold lerp_at. fold n. rewrite Hfl, Hdiv.
    replace (Z.to_nat (Z.max 0 (Z.min (Z.of_nat k - 1) (Z.of_nat n - 1))))
      with (k - 1)%nat by lia.
    replace (Z.to_nat (Z.max 0 (Z.min (Z.of_nat k - 1 + 1) (Z.of_nat n - 1))))
      with k by lia.
    rewrite Hh. field.
Qed.

Lemma np_median_lerp (data : list Q) :
  data <> [] ->
  exists med,
    np_median data = Fin med /\
    med == lerp_at (np_sort data) (virtual_index (List.length data) 50).
Proof.
  intro Hne.
  assert (Hs : np_sort data <> []).
  { intro E. apply Hne, length_zero_iff_nil. now rewrite <- np_sort_length, E. }
  pose proof (median_lerp (np_sort data) Hs) as H. cbv zeta in H.
  rewrite np_sort_length in H.
  unfold np_median. rewrite np_sort_length.
  destruct (np_sort data) as [|x l] eqn:E; [congruence|].
  destruct (Nat.odd (List.length data)); eexists; (split; [reflexivity|exact H]).
Qed.

(** The 25th percentile, the median and the 75th percentile are in
    order. *)
Lemma percentiles_ordered (data : list Q) :
  data <> [] ->
  let p25 := lerp_at (np_sort data) (virtual_index (List.length data) 25) in
  let p75 := lerp_at (np_sort data) (virtual_index (List.length data) 75) in
  exists med,
    np_percentile data 25 = Fin p25 /\
    np_median data = Fin med /\
    np_percentile data 75 = Fin p75 /\
    med == lerp_at (np_sort data) (virtual_index (List.length data) 50) /\
    p25 <= med /\ med <= p75.
Proof.
  intros Hne p25 p75.
  assert (Hn : (0 < List.length data)%nat).
  { destruct data; [congruence|simpl; lia]. }
  destruct (np_median_lerp data Hne) as (med & Hmed & Emed).
  exists med.
  split; [now apply np_percentile_lerp|]. split; [exact Hmed|].
  split; [now apply np_percentile_lerp|]. split; [exact Emed|].
  rewrite Emed. unfold p25, p75.
  split; apply lerp_at_monotone;
    try apply np_sort_sorted;
    try (apply virtual_index_monotone; [exact Hn|discriminate]);
    rewrite ?np_sort_length;
    apply virtual_index_range; try exact Hn; discriminate.
Qed.

(** ** Statistics *)

Lemma Qlen_map (f : Q -> Q) (data : list Q) : Qlen (map f data) = Qlen data.
Proof. unfold Qlen. now rewrite length_map. Qed.

Lemma np_mean_nonempty (data : list Q) :
  data <> [] -> np_mean data = Fin (np_sum data / Qlen data).
Proof. destruct data; [congruence|reflexivity]. Qed.

Lemma describe_empty : describe [] = Raise (zero_size "minimum").
Proof. reflexivity. Qed.

Lemma describe_spec (data : list Q) :
  data <> [] -> exists st, describe data = Ok st /\ describes data st.
Proof.
  intro Hne.
  destruct (percentiles_ordered data Hne)
    as (med & H25 & Hmed & H75 & Emed & Hlo & Hhi).
  destruct data as [|x l]; [congruence|].
  eexists. split; [reflexivity|].
  exists (py_min x l), (py_max x l), med.
  eexists. eexists. cbn [st_min st_max st_mean st_median st_iqr st_stddev].
  split; [reflexivity|]. split; [apply py_min_is_min|].
  split; [reflexivity|]. split; [apply py_max_is_max|].
  split; [reflexivity|]. split; [exact Hmed|]. split; [exact Hmed|].
  split; [exact H25|]. split; [exact H75|].
  split; [unfold calculate_iqr; now rewrite H25, H75|].
  split; [exact Hlo|]. split; [exact Hhi|].
  split.
  { exists (np_sort (x :: l)).
    split; [apply np_sort_perm|]. split; [apply np_sort_sorted|].
    split; [reflexivity|]. split; [exact Emed|reflexivity]. }
  unfold np_std. rewrite (np_mean_nonempty (x :: l)) by discriminate.
  rewrite np_mean_nonempty by discriminate. now rewrite Qlen_map.
Qed.

Lemma collect_finite_values (key : string) (margins : list MarginRecord) :
  Forall (fun margin => lookup key margin <> None) margins ->
  collect key margins = Ok (finite_values key margins).
Proof.
  induction 1 as [|margin rest Hm Hrest IH]; simpl; [reflexivity|].
  unfold getitem. destruct (lookup key margin) as [v|]; [|congruence].
  cbn [bind]. rewrite IH. cbn [bind]. now destruct v.
Qed.

Lemma finite_values_all_nan (key : string) (margins : list MarginRecord) :
  Forall (fun margin => lookup key margin = Some NaN) margins ->
  finite_values key margins = [].
Proof.
  induction 1 as [|margin rest Hm Hrest IH]; simpl; [reflexivity|].
  now rewrite Hm, IH.
Qed.

Section StatisticsLoop.
Variable margins : list MarginRecord.

Lemma statistics_loop_spec (ks : list string) :
  keys_present margins ks ->
  (forall k, In k ks -> finite_values k margins <> []) ->
  forall acc : dict Stats,
    NoDup (keys acc ++ ks) ->
    exists statistics,
      statistics_loop ks margins acc = Ok statistics /\
      keys statistics = (keys acc ++ ks)%list /\
      (forall k, ~ In k ks -> lookup k statistics = lookup k acc) /\
      (forall k, In k ks ->
         exists st, lookup k statistics = Some st /\
                    describes (finite_values k margins) st).
Proof.
  induction ks as [|key ks IH]; intros Hp Hv acc Hnd.
  - exists acc. simpl. rewrite app_nil_r. repeat split; try reflexivity.
    intros k [].
  - simpl. rewrite (collect_finite_values key margins) by (apply Hp; now left).
    cbn [bind].
    destruct (describe_spec (finite_values key margins)) as (st & Hst & Hd).
    { apply Hv. now left. }
    rewrite Hst. cbn [bind].
    assert (Hkey : lookup key acc = None).
    { apply lookup_not_in_keys. intro Hin.
      apply NoDup_remove_2 in Hnd. apply Hnd, in_or_app. now left. }
    assert (Hnin : ~ In key ks).
    { intro Hin. apply NoDup_remove_2 in Hnd. apply Hnd, in_or_app. now right. }
    destruct (IH (fun k Hk => Hp k (or_intror Hk)) (fun k Hk => Hv k (or_intror Hk))
                (setitem key st acc))
      as (statistics & Hrun & Hk & Hout & Hin).
    { rewrite keys_setitem_absent, <- app_assoc by exact Hkey. exact Hnd. }
    exists statistics. split; [exact Hrun|]. split; [|split].
    + rewrite Hk, keys_setitem_absent, <- app_assoc by exact Hkey. reflexivity.
    + intros k Hk'. rewrite Hout by (intro; apply Hk'; now right).
      apply lookup_setitem_other. intros ->. apply Hk'. now left.
    + intros k [<-|Hk'].
      * exists st. split; [|exact Hd].
        rewrite Hout by exact Hnin. apply lookup_setitem_same.
      * now apply Hin.
Qed.

(** A key without a finite value makes the loop fail in [np.min]. *)
Lemma statistics_loop_empty_key (ks : list string) (key : string) :
  keys_present margins ks ->
  In key ks ->
  finite_values key margins = [] ->
  forall acc, statistics_loop ks margins acc = Raise (zero_size "minimum").
Proof.
  induction ks as [|key0 ks IH]; intros Hp Hin Hempty acc; [destruct Hin|].
  simpl. rewrite (collect_finite_values key0 margins) by (apply Hp; now left).
  cbn [bind].
  destruct (finite_values key0 margins) as [|x l] eqn:E.
  - reflexivity.
  - destruct (describe_spec (x :: l)) as (st & Hst & _); [discriminate|].
    rewrite Hst. cbn [bind].
    apply IH; [intros k Hk; apply Hp; now right| |exact Hempty].
    destruct Hin as [<-|Hin]; [congruence|exact Hin].
Qed.
End StatisticsLoop.

Lemma uniform_keys_present (first : MarginRecord) (rest : list MarginRecord) :
  uniform_keys (first :: rest) ->
  forall k, In k (keys first) ->
            Forall (fun margin => lookup k margin <> None) (first :: rest).
Proof.
  intros Hu k Hk. unfold uniform_keys in Hu.
  eapply Forall_impl; [|exact Hu]. intros margin H. now apply H.
Qed.

(** C4 (amended): for a non-empty list of records that all have the keys of
    the first one, if the values of some key are all NaN, the call fails as
    a whole with the [ValueError] that numpy raises for the minimum of an
    empty array; no key is skipped and no statistics are returned. *)
Theorem all_nan_key_raises_value_error
    (first : MarginRecord) (rest : list MarginRecord) (key : string) :
  uniform_keys (first :: rest) ->
  In key (keys first) ->
  Forall (fun margin => lookup key margin = Some NaN) (first :: rest) ->
  statistics_margins (first :: rest) = Raise (zero_size "minimum") /\
  exn_class (zero_size "minimum") = "ValueError".
Proof.
  intros Hu Hkey Hnan. split; [|reflexivity].
  unfold statistics_margins.
  rewrite (statistics_loop_empty_key (first :: rest) (keys first) key).
  - reflexivity.
  - intros k Hk. now apply uniform_keys_present.
  - exact Hkey.
  - now apply finite_values_all_nan.
Qed.

(** C4, as stated, fails on the record of a single page without content:
    the call raises [ValueError], which is neither an exception named
    EmptyStatisticsError nor a result that leaves the key out. *)
Lemma all_nan_key_counterexample :
  Forall (fun margin => lookup "left" margin = Some NaN) [blank_record] /\
  statistics_margins [blank_record] = Raise (zero_size "minimum") /\
  ~ guarded_for_key [blank_record] "left" "EmptyStatisticsError".
Proof.
  assert (Hrun : statistics_margins [blank_record] = Raise (zero_size "minimum"))
    by reflexivity.
  split; [repeat constructor|]. split; [exact Hrun|].
  intros [(e & He & Hc)|(statistics & Hs & _)]; rewrite Hrun in *.
  - injection He as <-. discriminate.
  - discriminate.
Qed.

(** C9 (amended): for a non-empty list of records that all have the keys of
    the first one, each key having at least one non-NaN value, the call
    returns for each key of the first record the statistics of the non-NaN
    values of the key across all records: least and greatest value, mean,
    median, the difference of the 75th and 25th percentile under linear
    interpolation, and the root of the mean squared deviation; the 25th
    percentile is at most the median, which is at most the 75th. *)
Theorem statistics_over_finite_values
    (first : MarginRecord) (rest : list MarginRecord) :
  is_dict first ->
  uniform_keys (first :: rest) ->
  (forall key, In key (keys first) -> finite_values key (first :: rest) <> []) ->
  statistics_of_finite_values (first :: rest).
Proof.
  intros Hd Hu Hv.
  destruct (statistics_loop_spec (first :: rest) (keys first)) with (acc := @nil (string * Stats))
    as (statistics & Hrun & Hk & _ & Hin).
  - intros k Hk. now apply uniform_keys_present.
  - exact Hv.
  - exact Hd.
  - exists first, rest, statistics. split; [reflexivity|].
    unfold statistics_margins. rewrite Hrun. cbn [bind].
    split; [reflexivity|]. split; [exact Hk|exact Hin].
Qed.

(** C9, as stated, fails on a document of two pages without content: the
    list of records is not empty, yet no statistics are computed. *)
Lemma statistics_of_blank_pages_counterexample :
  calculate_margins [blank_page; blank_page] [] false
  = Ok [blank_record; blank_record] /\
  statistics_margins [blank_record; blank_record] = Raise (zero_size "minimum") /\
  ~ statistics_of_finite_values [blank_record; blank_record].
Proof.
  assert (Hrun : statistics_margins [blank_record; blank_record]
                 = Raise (zero_size "minimum")) by reflexivity.
  split; [reflexivity|]. split; [exact Hrun|].
  intros (first & rest & statistics & _ & Hs & _).
  rewrite Hrun in Hs. discriminate.
Qed.

(** ** The statements at sample inputs *)

Ltac nodup_strings :=
  unfold is_dict; simpl; repeat constructor; simpl; intuition discriminate.

Ltac keys_not_none :=
  let k := fresh "k" in
  let H := fresh "H" in
  simpl; intros k H;
  repeat (destruct H as [<-|H]; [discriminate|]); destruct H.

Lemma sample_pages_ok : Forall page_extent_ok sample_pages.
Proof. repeat constructor; discriminate. Defined.

Lemma get_bounding_box_spec_witness :
  exists x0 y0 x1 y1,
    is_min x0 (map bx0 (text_blocks sample_page)) /\
    is_min y0 (map by0 (text_blocks sample_page)) /\
    is_max x1 (map bx1 (text_blocks sample_page)) /\
    is_max y1 (map by1 (text_blocks sample_page)) /\
    get_bounding_box sample_page
    = Ok [("left", Fin (x0 / width sample_page));
          ("top", Fin (y0 / height sample_page));
          ("right", Fin ((width sample_page - x1) / width sample_page));
          ("bottom", Fin ((height sample_page - y1) / height sample_page))].
Proof.
  apply (proj2 (get_bounding_box_spec sample_page)).
  - discriminate.
  - split; discriminate.
Defined.

Lemma inner_outer_follows_document_parity_witness :
  exists margins rec l t r b,
    calculate_margins sample_pages sample_exceptions true = Ok margins /\
    nth_error margins (2 - excluded_below 2 sample_exceptions) = Some rec /\
    get_bounding_box sample_page
    = Ok [("left", l); ("top", t); ("right", r); ("bottom", b)] /\
    rec = (if Nat.even (2 + 1)
           then [("top", t); ("bottom", b); ("inner", l); ("outer", r)]
           else [("top", t); ("bottom", b); ("inner", r); ("outer", l)]).
Proof.
  apply (inner_outer_follows_document_parity sample_pages sample_exceptions 2
           sample_page).
  - exact sample_pages_ok.
  - reflexivity.
  - reflexivity.
Defined.

Lemma bad_cuts_flag_records_below_threshold_witness :
  flags_records_below left_right_records left_right_thresholds /\
  (forall bad_cuts k l i rec,
      get_bad_cuts_with_margin left_right_records left_right_thresholds
      = Ok bad_cuts ->
      lookup k bad_cuts = Some l ->
      nth_error left_right_records i = Some rec ->
      lookup k rec = Some NaN ->
      ~ In i l).
Proof.
  apply bad_cuts_flag_records_below_threshold.
  - repeat constructor; nodup_strings.
  - nodup_strings.
  - repeat constructor; keys_not_none.
Defined.

Lemma bad_cuts_key_error_on_uncovered_key_witness :
  exists k',
    get_bad_cuts_with_margin [inner_outer_record] left_right_thresholds
    = Raise (KeyError k') /\
    lookup k' left_right_thresholds = None /\
    exists rec, In rec [inner_outer_record] /\ In k' (keys rec).
Proof.
  apply bad_cuts_key_error_on_uncovered_key.
  exists 0%nat, inner_outer_record, "inner", (Fin (1 # 10)).
  repeat split.
Defined.


Lemma all_nan_key_raises_value_error_witness :
  statistics_margins [blank_record] = Raise (zero_size "minimum") /\
  exn_class (zero_size "minimum") = "ValueError".
Proof.
  apply (all_nan_key_raises_value_error blank_record [] "left").
  - repeat constructor. keys_not_none.
  - simpl. now left.
  - repeat constructor.
Defined.

Lemma statistics_over_finite_values_witness :
  statistics_of_finite_values left_right_records.
Proof.
  apply statistics_over_finite_values.
  - nodup_strings.
  - repeat constructor; keys_not_none.
  - simpl. intros key H.
    repeat (destruct H as [<-|H]; [discriminate|]). destruct H.
Defined.

(** * Further properties *)

(** ** The bounding box *)




(** X3: a page with content whose width or height is zero makes
    [get_bounding_box] raise [ZeroDivisionError]. *)
Theorem bounding_box_of_empty_extent_raises (page : Page) :
  text_blocks page <> [] ->
  width page == 0 \/ height page == 0 ->
  get_bounding_box page = Raise ZeroDivisionError.
Proof.
  intros Hne Hzero. unfold get_bounding_box.
  destruct (text_blocks page) as [|b bs]; [congruence|].
  unfold py_div.
  destruct (Qeq_bool (width page) 0) eqn:Ew; [reflexivity|].
  destruct Hzero as [Hw|Hh].
  - apply Qeq_bool_iff in Hw. congruence.
  - apply Qeq_bool_iff in Hh. cbn [bind]. now rewrite Hh.
Qed.

Lemma bounding_box_of_empty_extent_raises_witness :
  get_bounding_box flat_page = Raise ZeroDivisionError.
Proof.
  apply bounding_box_of_empty_extent_raises.
  - discriminate.
  - left. reflexivity.
Defined.

(** ** Removing keys *)

Section DictRemoval.
Context {V : Type}.
Implicit Types (d : dict V) (k : string) (v : V).

Lemma lookup_remove_other d k k' : k <> k' -> lookup k' (remove k d) = lookup k' d.
Proof.
  intro Hne. induction d as [|[k0 v0] d IH]; simpl; [reflexivity|].
  destruct (String.eqb k k0) eqn:E; simpl.
  - apply String.eqb_eq in E. subst k0.
    destruct (String.eqb k' k) eqn:E'; [|reflexivity].
    apply String.eqb_eq in E'. congruence.
  - now rewrite IH.
Qed.

Lemma keys_remove_incl d k x : In x (keys (remove k d)) -> In x (keys d).
Proof.
  induction d as [|[k0 v0] d IH]; simpl; [tauto|].
  destruct (String.eqb k k0); simpl; [now right|].
  intros [H|H]; [now left|right; now apply IH].
Qed.

Lemma is_dict_remove d k : is_dict d -> is_dict (remove k d).
Proof.
  unfold is_dict. induction d as [|[k0 v0] d IH]; simpl; [trivial|].
  intro Hnd. inversion Hnd as [|? ? Hnin Hnd']; subst.
  destruct (String.eqb k k0); simpl; [exact Hnd'|].
  constructor; [|now apply IH].
  intro Hin. apply Hnin. eapply keys_remove_incl. exact Hin.
Qed.

Lemma lookup_remove_same d k : is_dict d -> lookup k (remove k d) = None.
Proof.
  unfold is_dict. induction d as [|[k0 v0] d IH]; simpl; [reflexivity|].
  intro Hnd. inversion Hnd as [|? ? Hnin Hnd']; subst.
  destruct (String.eqb k k0) eqn:E; simpl.
  - apply String.eqb_eq in E. subst k0. now apply lookup_not_in_keys.
  - rewrite E. now apply IH.
Qed.

Lemma is_dict_setitem d k v : is_dict d -> is_dict (setitem k v d).
Proof.
  unfold is_dict. intro Hnd. destruct (lookup k d) eqn:E.
  - rewrite keys_setitem_present by congruence. exact Hnd.
  - rewrite keys_setitem_absent by exact E.
    apply NoDup_app; [exact Hnd|repeat constructor; simpl; tauto|].
    intros x Hx [<-|[]]. apply lookup_in_keys in Hx. congruence.
Qed.

Lemma pop_ok d k v : lookup k d = Some v -> pop k d = Ok (v, remove k d).
Proof. unfold pop. now intros ->. Qed.

Lemma pop_missing d k : lookup k d = None -> pop k d = Raise (KeyError k).
Proof. unfold pop. now intros ->. Qed.

Lemma lookup_in_items d k v : lookup k d = Some v -> In (k, v) d.
Proof.
  induction d as [|[k0 v0] d IH]; simpl; [discriminate|].
  destruct (String.eqb k k0) eqn:E.
  - apply String.eqb_eq in E. subst k0. intro H. injection H as ->. now left.
  - intro H. right. now apply IH.
Qed.
End DictRemoval.

(** ** Renaming left/right to inner/outer *)

(** X4: on any record that has left and right, the renaming moves their
    values to inner and outer (left to inner when [i + 1] is even, right to
    inner when it is odd), removes left and right, and leaves every other
    key as it was. *)
Theorem rename_inner_outer_moves_left_right
    (i : nat) (bbox : MarginRecord) (l r : pyfloat) :
  is_dict bbox ->
  lookup "left" bbox = Some l ->
  lookup "right" bbox = Some r ->
  exists bbox',
    rename_inner_outer i bbox = Ok bbox' /\
    is_dict bbox' /\
    lookup "inner" bbox' = Some (if Nat.even (i + 1) then l else r) /\
    lookup "outer" bbox' = Some (if Nat.even (i + 1) then r else l) /\
    lookup "left" bbox' = None /\
    lookup "right" bbox' = None /\
    forall k, k <> "left" -> k <> "right" -> k <> "inner" -> k <> "outer" ->
              lookup k bbox' = lookup k bbox.
Proof.
  intros Hd Hl Hr. unfold rename_inner_outer. rewrite mod2_eqb_even.
  destruct (Nat.even (i + 1)).
  - rewrite (pop_ok _ _ _ Hl). cbn [bind].
    assert (Hr' : lookup "right" (setitem "inner" l (remove "left" bbox)) = Some r).
    { rewrite lookup_setitem_other, lookup_remove_other by discriminate. exact Hr. }
    rewrite (pop_ok _ _ _ Hr'). cbn [bind].
    assert (Hd' : is_dict (setitem "inner" l (remove "left" bbox))).
    { now apply is_dict_setitem, is_dict_remove. }
    eexists. split; [reflexivity|].
    split; [now apply is_dict_setitem, is_dict_remove|].
    split; [|split; [|split; [|split]]].
    + rewrite lookup_setitem_other, lookup_remove_other by discriminate.
      apply lookup_setitem_same.
    + apply lookup_setitem_same.
    + rewrite lookup_setitem_other, lookup_remove_other, lookup_setitem_other
        by discriminate.
      now apply lookup_remove_same.
    + rewrite lookup_setitem_other by discriminate. now apply lookup_remove_same.
    + intros k H1 H2 H3 H4.
      rewrite lookup_setitem_other, lookup_remove_other, lookup_setitem_other,
        lookup_remove_other by congruence.
      reflexivity.
  - rewrite (pop_ok _ _ _ Hr). cbn [bind].
    assert (Hl' : lookup "left" (setitem "inner" r (remove "right" bbox)) = Some l).
    { rewrite lookup_setitem_other, lookup_remove_other by discriminate. exact Hl. }
    rewrite (pop_ok _ _ _ Hl'). cbn [bind].
    assert (Hd' : is_dict (setitem "inner" r (remove "right" bbox))).
    { now apply is_dict_setitem, is_dict_remove. }
    eexists. split; [reflexivity|].
    split; [now apply is_dict_setitem, is_dict_remove|].
    split; [|split; [|split; [|split]]].
    + rewrite lookup_setitem_other, lookup_remove_other by discriminate.
      apply lookup_setitem_same.
    + apply lookup_setitem_same.
    + rewrite lookup_setitem_other by discriminate. now apply lookup_remove_same.
    + rewrite lookup_setitem_other, lookup_remove_other, lookup_setitem_other
        by discriminate.
      now apply lookup_remove_same.
    + intros k H1 H2 H3 H4.
      rewrite lookup_setitem_other, lookup_remove_other, lookup_setitem_other,
        lookup_remove_other by congruence.
      reflexivity.
Qed.

Lemma rename_inner_outer_moves_left_right_witness :
  exists bbox',
    rename_inner_outer 2 sample_record = Ok bbox' /\
    is_dict bbox' /\
    lookup "inner" bbox'
    = Some (if Nat.even (2 + 1) then Fin (1 # 10) else Fin (3 # 10)) /\
    lookup "outer" bbox'
    = Some (if Nat.even (2 + 1) then Fin (3 # 10) else Fin (1 # 10)) /\
    lookup "left" bbox' = None /\
    lookup "right" bbox' = None /\
    forall k, k <> "left" -> k <> "right" -> k <> "inner" -> k <> "outer" ->
              lookup k bbox' = lookup k sample_record.
Proof.
  apply (rename_inner_outer_moves_left_right 2 sample_record
           (Fin (1 # 10)) (Fin (3 # 10))).
  - nodup_strings.
  - reflexivity.
  - reflexivity.
Defined.

(** X5: on a record that lacks left or right the renaming raises
    [KeyError] for a key the record lacks; in particular a record that has
    been renamed cannot be renamed again. *)
Theorem rename_inner_outer_needs_left_and_right (i : nat) (bbox : MarginRecord) :
  lookup "left" bbox = None \/ lookup "right" bbox = None ->
  exists k,
    rename_inner_outer i bbox = Raise (KeyError k) /\
    (k = "left" \/ k = "right") /\
    lookup k bbox = None.
Proof.
  intro Hmiss. unfold rename_inner_outer.
  destruct (Nat.eqb ((i + 1) mod 2) 0).
  - destruct (lookup "left" bbox) as [l|] eqn:El.
    + destruct Hmiss as [H|Hr]; [discriminate|].
      exists "right". rewrite (pop_ok _ _ _ El). cbn [bind].
      rewrite pop_missing; [now repeat split; auto|].
      rewrite lookup_setitem_other, lookup_remove_other by discriminate. exact Hr.
    + exists "left". rewrite (pop_missing _ _ El). now repeat split; auto.
  - destruct (lookup "right" bbox) as [r|] eqn:Er.
    + destruct Hmiss as [Hl|H]; [|discriminate].
      exists "left". rewrite (pop_ok _ _ _ Er). cbn [bind].
      rewrite pop_missing; [now repeat split; auto|].
      rewrite lookup_setitem_other, lookup_remove_other by discriminate. exact Hl.
    + exists "right". rewrite (pop_missing _ _ Er). now repeat split; auto.
Qed.

Lemma rename_inner_outer_needs_left_and_right_witness :
  exists k,
    rename_inner_outer 0 inner_outer_record = Raise (KeyError k) /\
    (k = "left" \/ k = "right") /\
    lookup k inner_outer_record = None.
Proof.
  apply rename_inner_outer_needs_left_and_right. left. reflexivity.
Defined.

(** ** The records of a run *)

Lemma Forall2_Forall_right {A B : Type} (R : A -> B -> Prop) (P : B -> Prop)
    (l : list A) (l' : list B) :
  Forall2 R l l' -> (forall a b, R a b -> P b) -> Forall P l'.
Proof.
  induction 1 as [|a b l l' Hab _ IH]; intro HP; constructor; eauto.
Qed.

Lemma has_content_false (page : Page) : has_content page = false <-> text_blocks page = [].
Proof. unfold has_content. destruct (text_blocks page); split; congruence. Qed.

(** The record of a retained page: the keys of the run, and values that are
    all NaN for a page without content, all finite otherwise. *)
Lemma margin_of_page_shape (inner_outer : bool) (i : nat) (page : Page) :
  text_blocks page = [] \/ page_extent_ok page ->
  exists rec,
    margin_of_page inner_outer i page = Ok rec /\
    keys rec = record_keys inner_outer /\
    (if has_content page then all_finite rec else all_nan rec).
Proof.
  intro Hpage.
  assert (Hbox : exists l t r b,
             get_bounding_box page
             = Ok [("left", l); ("top", t); ("right", r); ("bottom", b)] /\
             (if has_content page
              then isnan l = false /\ isnan t = false /\
                   isnan r = false /\ isnan b = false
              else l = NaN /\ t = NaN /\ r = NaN /\ b = NaN)).
  { unfold has_content. destruct (text_blocks page) as [|blk bs] eqn:E.
    - exists NaN, NaN, NaN, NaN. split; [now apply get_bounding_box_empty|tauto].
    - destruct Hpage as [H|Hok]; [discriminate|].
      destruct (get_bounding_box_content page) as (x0 & y0 & x1 & y1 & _ & _ & _ & _ & H);
        [congruence|exact Hok|].
      do 4 eexists. split; [exact H|]. repeat split. }
  destruct Hbox as (l & t & r & b & Hrun & Hvals).
  unfold margin_of_page. rewrite Hrun. cbn [bind].
  destruct inner_outer.
  - rewrite rename_inner_outer_bbox.
    destruct (Nat.eqb ((i + 1) mod 2) 0); eexists;
      (split; [reflexivity|]); (split; [reflexivity|]);
      destruct (has_content page); destruct Hvals as (H1 & H2 & H3 & H4);
      repeat constructor; assumption.
  - eexists. split; [reflexivity|]. split; [reflexivity|].
    destruct (has_content page); destruct Hvals as (H1 & H2 & H3 & H4);
      repeat constructor; assumption.
Qed.

(** The loop, for pages that are without content or have an extent. *)
Lemma calculate_margins_loop_shape (exception_list : list Z) (inner_outer : bool)
    (pages : list Page) :
  forall (s : nat) (acc : list MarginRecord),
    (forall k page, nth_error pages k = Some page ->
                    excluded (s + k) exception_list = false ->
                    text_blocks page = [] \/ page_extent_ok page) ->
    exists recs,
      calculate_margins_loop s pages exception_list inner_outer acc
      = Ok (acc ++ recs)%list /\
      Forall2 (fun ip rec =>
                 keys rec = record_keys inner_outer /\
                 (if has_content (snd ip) then all_finite rec else all_nan rec))
        (retained_from s pages exception_list) recs.
Proof.
  induction pages as [|page rest IH]; intros s acc Hpages; simpl.
  - exists []. rewrite app_nil_r. split; [reflexivity|constructor].
  - assert (Hrest : forall k p, nth_error rest k = Some p ->
                      excluded (S s + k) exception_list = false ->
                      text_blocks p = [] \/ page_extent_ok p).
    { intros k p Hk Hex. apply (Hpages (S k)); [exact Hk|].
      now rewrite <- Nat.add_succ_comm. }
    destruct (excluded s exception_list) eqn:Eex.
    + now apply IH.
    + destruct (margin_of_page_shape inner_outer s page) as (rec & Hrec & Hk & Hv).
      { apply (Hpages 0%nat); [reflexivity|]. now rewrite Nat.add_0_r. }
      rewrite Hrec. cbn [bind].
      destruct (IH (S s) (acc ++ [rec])%list Hrest) as (recs & Hrun & Hall).
      exists (rec :: recs). split.
      * rewrite <- app_assoc in Hrun. exact Hrun.
      * constructor; [now split|exact Hall].
Qed.

Lemma retained_from_nonempty (exception_list : list Z) (pages : list Page)
    (i : nat) (page : Page) :
  nth_error pages i = Some page ->
  excluded i exception_list = false ->
  In (i, page) (retained_from 0 pages exception_list).
Proof.
  intros Hnth Hex. eapply nth_error_In.
  exact (retained_from_nth exception_list pages 0 i page Hnth Hex).
Qed.

Lemma retained_from_none (exception_list : list Z) (pages : list Page) :
  forall s,
    (forall i, (s <= i < s + List.length pages)%nat ->
               excluded i exception_list = true) ->
    retained_from s pages exception_list = [].
Proof.
  induction pages as [|page rest IH]; intros s Hall; simpl; [reflexivity|].
  rewrite (Hall s) by (simpl; lia). apply IH. intros i Hi. apply Hall. simpl. lia.
Qed.

(** X6: all records of a run have the same keys in the same order (left,
    top, right, bottom, or top, bottom, inner, outer), without duplicates,
    and each record is either all NaN or all finite. *)
Theorem records_share_keys
    (pages : list Page) (exception_list : list Z) (inner_outer : bool) :
  Forall page_extent_ok pages ->
  exists margins,
    calculate_margins pages exception_list inner_outer = Ok margins /\
    uniform_keys margins /\
    Forall (fun rec => keys rec = record_keys inner_outer /\ is_dict rec /\
                       (all_nan rec \/ all_finite rec)) margins.
Proof.
  intro Hok.
  destruct (calculate_margins_loop_shape exception_list inner_outer pages 0 [])
    as (recs & Hrun & Hall).
  { intros k page Hk _. right. rewrite Forall_forall in Hok.
    eapply Hok, nth_error_In, Hk. }
  exists recs. split; [exact Hrun|].
  assert (Hkeys : Forall (fun rec => keys rec = record_keys inner_outer) recs).
  { eapply Forall2_Forall_right; [exact Hall|]. now intros a b [H _]. }
  split.
  - unfold uniform_keys. destruct recs as [|first rest]; [exact I|].
    inversion Hkeys as [|? ? Hfirst _]; subst.
    eapply Forall_impl; [|exact Hkeys].
    intros rec Hrec k Hk. apply lookup_in_keys. now rewrite Hrec, <- Hfirst.
  - eapply Forall2_Forall_right; [exact Hall|].
    intros [k page] rec [Hk Hv]. simpl in Hv. split; [exact Hk|]. split.
    + unfold is_dict. rewrite Hk. destruct inner_outer; nodup_strings.
    + destruct (has_content page); [now right|now left].
Qed.

Lemma records_share_keys_witness :
  exists margins,
    calculate_margins sample_pages sample_exceptions true = Ok margins /\
    uniform_keys margins /\
    Forall (fun rec => keys rec = record_keys true /\ is_dict rec /\
                       (all_nan rec \/ all_finite rec)) margins.
Proof.
  apply records_share_keys. exact sample_pages_ok.
Defined.

(** ** From the pages to the statistics *)

Lemma retained_from_In (exception_list : list Z) (pages : list Page) :
  forall s k page,
    In (k, page) (retained_from s pages exception_list) ->
    (s <= k)%nat /\ nth_error pages (k - s) = Some page /\
    excluded k exception_list = false.
Proof.
  induction pages as [|p rest IH]; intros s k page Hin; simpl in Hin; [destruct Hin|].
  assert (Hrest : In (k, page) (retained_from (S s) rest exception_list) ->
                  (s <= k)%nat /\ nth_error (p :: rest) (k - s) = Some page /\
                  excluded k exception_list = false).
  { intro H. destruct (IH _ _ _ H) as (Hle & Hnth & Hex).
    split; [lia|]. split; [|exact Hex].
    replace (k - s)%nat with (S (k - S s)) by lia. exact Hnth. }
  destruct (excluded s exception_list) eqn:E; [now apply Hrest|].
  destruct Hin as [Heq|Hin]; [|now apply Hrest].
  injection Heq as <- <-. rewrite Nat.sub_diag. now repeat split.
Qed.

Lemma lookup_all_nan (rec : MarginRecord) (key : string) :
  all_nan rec -> In key (keys rec) -> lookup key rec = Some NaN.
Proof.
  intros Hnan Hin. apply lookup_in_keys in Hin.
  destruct (lookup key rec) as [v|] eqn:E; [|congruence].
  apply lookup_in_items in E. unfold all_nan in Hnan. rewrite Forall_forall in Hnan.
  specialize (Hnan _ E). simpl in Hnan. now subst v.
Qed.

Lemma lookup_all_finite (rec : MarginRecord) (key : string) :
  all_finite rec -> In key (keys rec) -> exists q, lookup key rec = Some (Fin q).
Proof.
  intros Hfin Hin. apply lookup_in_keys in Hin.
  destruct (lookup key rec) as [v|] eqn:E; [|congruence].
  apply lookup_in_items in E. unfold all_finite in Hfin. rewrite Forall_forall in Hfin.
  specialize (Hfin _ E). simpl in Hfin. destruct v; [discriminate|now eexists].
Qed.

(** One finite value per retained page with content. *)
Lemma finite_values_count (inner_outer : bool) (key : string)
    (retained : list (nat * Page)) (recs : list MarginRecord) :
  In key (record_keys inner_outer) ->
  Forall2 (fun ip rec =>
             keys rec = record_keys inner_outer /\
             (if has_content (snd ip) then all_finite rec else all_nan rec))
    retained recs ->
  List.length (finite_values key recs)
  = List.length (filter (fun ip => has_content (snd ip)) retained).
Proof.
  intro Hkey. induction 1 as [|ip rec retained recs [Hk Hv] _ IH]; [reflexivity|].
  simpl. rewrite length_app, IH.
  rewrite <- Hk in Hkey.
  destruct (has_content (snd ip)).
  - destruct (lookup_all_finite rec key Hv Hkey) as (q & ->). reflexivity.
  - now rewrite (lookup_all_nan rec key Hv Hkey).
Qed.

(** X7: when every page is excluded, no page is measured, the list of
    records is empty and the statistics are [None], whatever the pages
    are. *)
Theorem measure_document_all_excluded
    (pages : list Page) (exception_list : list Z) (inner_outer : bool) :
  (forall i, (i < List.length pages)%nat -> excluded i exception_list = true) ->
  calculate_margins pages exception_list inner_outer = Ok [] /\
  measure_document pages exception_list inner_outer = Ok None.
Proof.
  intro Hall.
  assert (Hrun : calculate_margins pages exception_list inner_outer = Ok []).
  { destruct (calculate_margins_loop_shape exception_list inner_outer pages 0 [])
      as (recs & Hrun & Hshape).
    - intros k page Hk Hex. simpl in Hex.
      rewrite Hall in Hex; [discriminate|].
      apply nth_error_Some. congruence.
    - rewrite retained_from_none in Hshape by (intros i Hi; apply Hall; lia).
      inversion Hshape; subst. exact Hrun. }
  split; [exact Hrun|]. unfold measure_document. now rewrite Hrun.
Qed.

Lemma measure_document_all_excluded_witness :
  calculate_margins [flat_page; sample_page] [1%Z; 0%Z; 5%Z] false = Ok [] /\
  measure_document [flat_page; sample_page] [1%Z; 0%Z; 5%Z] false = Ok None.
Proof.
  apply measure_document_all_excluded.
  intros i Hi. simpl in Hi. destruct i as [|[|i]]; [reflexivity|reflexivity|lia].
Defined.

(** X8: when some page is retained and no retained page has content, the
    statistics step fails with the [ValueError] of the minimum of an empty
    array. *)
Theorem measure_document_without_content
    (pages : list Page) (exception_list : list Z) (inner_outer : bool) :
  (exists i page, nth_error pages i = Some page /\
                  excluded i exception_list = false) ->
  (forall i page, nth_error pages i = Some page ->
                  excluded i exception_list = false ->
                  text_blocks page = []) ->
  measure_document pages exception_list inner_outer
  = Raise (zero_size "minimum").
Proof.
  intros (i & page & Hnth & Hex) Hblank.
  destruct (calculate_margins_loop_shape exception_list inner_outer pages 0 [])
    as (recs & Hrun & Hshape).
  { intros k p Hk Hexk. left. now apply (Hblank k). }
  simpl in Hrun.
  assert (Hnan : Forall (fun rec => keys rec = record_keys inner_outer /\ all_nan rec)
                   recs).
  { assert (Hall : Forall (fun ip => has_content (snd ip) = false)
                     (retained_from 0 pages exception_list)).
    { apply Forall_forall. intros [k p] Hin.
      destruct (retained_from_In _ _ _ _ _ Hin) as (_ & Hk & Hexk).
      rewrite Nat.sub_0_r in Hk. apply has_content_false. now apply (Hblank k). }
    clear Hrun. induction Hshape as [|ip rec l l' [Hk Hv] _ IH]; [constructor|].
    inversion Hall as [|? ? Hip Hall']; subst. rewrite Hip in Hv.
    constructor; [now split|now apply IH]. }
  assert (Hne : recs <> []).
  { intro E. subst recs. inversion Hshape as [E'|]; subst.
    pose proof (retained_from_nonempty exception_list pages i page Hnth Hex) as Hin.
    rewrite <- E' in Hin. destruct Hin. }
  unfold measure_document, calculate_margins. rewrite Hrun. cbn [bind].
  destruct recs as [|first rest]; [congruence|].
  unfold statistics_margins.
  assert (Hfirst : keys first = record_keys inner_outer).
  { inversion Hnan as [|? ? [H _] _]; subst. exact H. }
  rewrite (statistics_loop_empty_key (first :: rest) (keys first)
             (if inner_outer then "top" else "left")).
  - reflexivity.
  - intros k Hk. eapply Forall_impl; [|exact Hnan].
    intros rec [Hrec _]. apply lookup_in_keys. now rewrite Hrec, <- Hfirst.
  - rewrite Hfirst. destruct inner_outer; now left.
  - apply finite_values_all_nan. eapply Forall_impl; [|exact Hnan].
    intros rec [Hrec Hv]. apply lookup_all_nan; [exact Hv|].
    rewrite Hrec. destruct inner_outer; now left.
Qed.

Lemma measure_document_without_content_witness :
  measure_document [sample_page; blank_page; blank_page] [0%Z] true
  = Raise (zero_size "minimum").
Proof.
  apply measure_document_without_content.
  - exists 1%nat, blank_page. split; reflexivity.
  - intros i page Hnth Hex.
    destruct i as [|[|[|i]]]; simpl in Hnth.
    + discriminate.
    + now injection Hnth as <-.
    + now injection Hnth as <-.
    + destruct i; discriminate.
Defined.

(** X9: when some retained page has content, the statistics step returns,
    for each of the four keys of the run, the statistics of the finite
    values of the key, and there is exactly one such value per retained
    page with content. *)
Theorem measure_document_with_content
    (pages : list Page) (exception_list : list Z) (inner_outer : bool) :
  Forall page_extent_ok pages ->
  (exists i page, nth_error pages i = Some page /\
                  excluded i exception_list = false /\
                  has_content page = true) ->
  exists margins statistics,
    calculate_margins pages exception_list inner_outer = Ok margins /\
    measure_document pages exception_list inner_outer = Ok (Some statistics) /\
    keys statistics = record_keys inner_outer /\
    forall key, In key (record_keys inner_outer) ->
      List.length (finite_values key margins)
      = List.length (filter (fun ip => has_content (snd ip))
                       (retained_from 0 pages exception_list)) /\
      exists st, lookup key statistics = Some st /\
                 describes (finite_values key margins) st.
Proof.
  intros Hok (i & page & Hnth & Hex & Hcontent).
  destruct (calculate_margins_loop_shape exception_list inner_outer pages 0 [])
    as (recs & Hrun & Hshape).
  { intros k p Hk _. right. rewrite Forall_forall in Hok.
    eapply Hok, nth_error_In, Hk. }
  simpl in Hrun.
  assert (Hkeys : Forall (fun rec => keys rec = record_keys inner_outer) recs).
  { eapply Forall2_Forall_right; [exact Hshape|]. now intros a b [H _]. }
  assert (Hcount : forall key, In key (record_keys inner_outer) ->
            List.length (finite_values key recs)
            = List.length (filter (fun ip => has_content (snd ip))
                             (retained_from 0 pages exception_list))).
  { intros key Hkey. eapply finite_values_count; eassumption. }
  assert (Hpos : (0 < List.length (filter (fun ip => has_content (snd ip))
                                     (retained_from 0 pages exception_list)))%nat).
  { pose proof (retained_from_nonempty exception_list pages i page Hnth Hex) as Hin.
    assert (Hf : In (i, page) (filter (fun ip => has_content (snd ip))
                                 (retained_from 0 pages exception_list))).
    { apply filter_In. now split. }
    destruct (filter _ _); [destruct Hf|simpl; lia]. }
  destruct recs as [|first rest].
  { inversion Hshape as [E|]; subst. rewrite <- E in Hpos. simpl in Hpos. lia. }
  assert (Hfirst : keys first = record_keys inner_outer).
  { inversion Hkeys; subst. assumption. }
  destruct (statistics_loop_spec (first :: rest) (keys first)) with (acc := @nil (string * Stats))
    as (statistics & Hstat & Hk & _ & Hin).
  - intros k Hk. eapply Forall_impl; [|exact Hkeys].
    intros rec Hrec. apply lookup_in_keys. now rewrite Hrec, <- Hfirst.
  - intros key Hkey E. rewrite Hfirst in Hkey.
    specialize (Hcount key Hkey). rewrite E in Hcount. simpl in Hcount. lia.
  - simpl. rewrite Hfirst. destruct inner_outer; nodup_strings.
  - exists (first :: rest), statistics.
    split; [exact Hrun|].
    unfold measure_document, calculate_margins. rewrite Hrun. cbn [bind].
    unfold statistics_margins. rewrite Hstat. cbn [bind].
    split; [reflexivity|]. split; [simpl in Hk; congruence|].
    intros key Hkey. split; [now apply Hcount|].
    apply Hin. now rewrite Hfirst.
Qed.

Lemma measure_document_with_content_witness :
  exists margins statistics,
    calculate_margins sample_pages sample_exceptions true = Ok margins /\
    measure_document sample_pages sample_exceptions true = Ok (Some statistics) /\
    keys statistics = record_keys true /\
    forall key, In key (record_keys true) ->
      List.length (finite_values key margins)
      = List.length (filter (fun ip => has_content (snd ip))
                       (retained_from 0 sample_pages sample_exceptions)) /\
      exists st, lookup key statistics = Some st /\
                 describes (finite_values key margins) st.
Proof.
  apply measure_document_with_content.
  - exact sample_pages_ok.
  - exists 2%nat, sample_page. repeat split.
Defined.

(** ** Sums, means and interpolated values *)

Lemma fold_left_Qplus (l : list Q) : forall a, fold_left Qplus l a == a + fold_left Qplus l 0.
Proof.
  induction l as [|x l IH]; intro a; simpl; [ring|].
  rewrite (IH (a + x)), (IH (0 + x)). ring.
Qed.

Lemma np_sum_cons (x : Q) (l : list Q) : np_sum (x :: l) == x + np_sum l.
Proof. unfold np_sum. simpl. rewrite fold_left_Qplus. ring. Qed.

Lemma Qlen_cons (x : Q) (l : list Q) : Qlen (x :: l) == 1 + Qlen l.
Proof.
  unfold Qlen. simpl List.length. rewrite Nat2Z.inj_succ, <- Z.add_1_l, inject_Z_plus.
  reflexivity.
Qed.

Lemma Qlen_nonneg (l : list Q) : 0 <= Qlen l.
Proof. unfold Qlen. change 0 with (inject_Z 0). rewrite <- Zle_Qle. lia. Qed.

Lemma Qlen_pos (l : list Q) : l <> [] -> 0 < Qlen l.
Proof.
  intro Hne. destruct l as [|x l]; [congruence|].
  rewrite Qlen_cons. pose proof (Qlen_nonneg l). lra.
Qed.

Lemma np_sum_bounds (lo hi : Q) (data : list Q) :
  (forall y, In y data -> lo <= y /\ y <= hi) ->
  Qlen data * lo <= np_sum data /\ np_sum data <= Qlen data * hi.
Proof.
  induction data as [|x l IH]; intro Hall.
  - unfold np_sum, Qlen. simpl. split; apply Qle_lteq; right; ring.
  - destruct IH as [IH1 IH2]; [intros y Hy; apply Hall; now right|].
    destruct (Hall x (or_introl eq_refl)) as [Hx1 Hx2].
    rewrite np_sum_cons, Qlen_cons. split.
    + rewrite Qmult_plus_distr_l, Qmult_1_l. lra.
    + rewrite Qmult_plus_distr_l, Qmult_1_l. lra.
Qed.

Lemma mean_bounds (lo hi : Q) (data : list Q) :
  data <> [] ->
  (forall y, In y data -> lo <= y /\ y <= hi) ->
  lo <= np_sum data / Qlen data /\ np_sum data / Qlen data <= hi.
Proof.
  intros Hne Hall. destruct (np_sum_bounds lo hi data Hall) as [H1 H2].
  pose proof (Qlen_pos data Hne) as Hpos. split.
  - apply Qle_shift_div_l; [exact Hpos|]. now rewrite Qmult_comm.
  - apply Qle_shift_div_r; [exact Hpos|]. now rewrite Qmult_comm.
Qed.

(** An interpolated value lies between two elements of the array. *)
Lemma lerp_at_between (arr : list Q) (h : Q) :
  StronglySorted Qle arr ->
  0 <= h -> h <= inject_Z (Z.of_nat (List.length arr) - 1) ->
  exists a b, In a arr /\ In b arr /\ a <= lerp_at arr h /\ lerp_at arr h <= b.
Proof.
  intros Hs H0 Hn.
  assert (Hlen : (0 < List.length arr)%nat).
  { destruct arr; simpl; [|lia]. simpl in Hn.
    assert (h <= -1) by exact Hn. lra. }
  set (n := Z.of_nat (List.length arr)) in *.
  assert (Hf : (0 <= Qfloor h <= n - 1)%Z) by (apply Qfloor_bounds; assumption).
  pose proof (Qfloor_le h) as G. pose proof (Qlt_floor h) as G'.
  rewrite inject_Z_plus in G'. change (inject_Z 1) with 1 in G'.
  set (clip := fun z : Z => Z.to_nat (Z.max 0 (Z.min z (n - 1)))).
  set (a := nth (clip (Qfloor h)) arr 0).
  set (b := nth (clip (Qfloor h + 1)%Z) arr 0).
  set (g := h - inject_Z (Qfloor h)).
  assert (Hab : a <= b).
  { apply sorted_nth_le; [exact Hs|]. unfold clip, n. lia. }
  assert (Hg : 0 <= g /\ g <= 1) by (unfold g; split; lra).
  exists a, b.
  split; [apply nth_In; unfold clip, n; lia|].
  split; [apply nth_In; unfold clip, n; lia|].
  change (a <= a + (b - a) * g /\ a + (b - a) * g <= b).
  clearbody a b g.
  assert (0 <= (b - a) * g) by (apply Qmult_le_0_compat; lra).
  assert ((b - a) * g <= (b - a) * 1).
  { rewrite !(Qmult_comm (b - a)). apply Qmult_le_compat_r; lra. }
  split; lra.
Qed.

Lemma sum_of_squares_nonneg (mu : Q) (data : list Q) :
  0 <= np_sum (map (fun x => (x - mu) * (x - mu)) data).
Proof.
  induction data as [|x l IH]; [unfold np_sum; simpl; lra|].
  cbn [map]. rewrite np_sum_cons.
  assert (0 <= (x - mu) * (x - mu)).
  { destruct (Qlt_le_dec (x - mu) 0) as [Hneg|Hpos].
    - setoid_replace ((x - mu) * (x - mu)) with ((mu - x) * (mu - x)) by ring.
      apply Qmult_le_0_compat; lra.
    - now apply Qmult_le_0_compat. }
  lra.
Qed.

(** ** What the statistics satisfy *)

(** The facts that follow for statistics that describe a non-empty list. *)
Lemma describes_bounds (data : list Q) (st : Stats) :
  data <> [] ->
  describes data st ->
  exists mn mx mean med p25 p75 var,
    st_min st = Fin mn /\ st_max st = Fin mx /\ st_mean st = Fin mean /\
    st_median st = Fin med /\ st_iqr st = Fin (p75 - p25) /\
    st_stddev st = Sqrt (Fin var) /\
    is_min mn data /\ is_max mx data /\
    mean = np_sum data / Qlen data /\
    var = np_sum (map (fun x => (x - mean) * (x - mean)) data) / Qlen data /\
    (mn <= mean /\ mean <= mx) /\
    (mn <= p25 /\ p25 <= med /\ med <= p75 /\ p75 <= mx) /\
    0 <= var.
Proof.
  intros Hne (mn & mx & med & p25 & p75 & Hmin & Imin & Hmax & Imax & Hmean
              & Hmed & _ & _ & _ & Hiqr & H25 & H75
              & (arr & Hperm & Hs & E25 & E50 & E75) & Hstd).
  exists mn, mx, (np_sum data / Qlen data), med, p25, p75,
    (np_sum (map (fun x => (x - np_sum data / Qlen data)
                           * (x - np_sum data / Qlen data)) data) / Qlen data).
  repeat (split; [assumption || reflexivity|]).
  assert (Hrange : forall y, In y data -> mn <= y /\ y <= mx).
  { intros y Hy. split; [now apply Imin|now apply Imax]. }
  assert (Hn : (0 < List.length data)%nat).
  { destruct data; [congruence|simpl; lia]. }
  assert (Hlerp : forall q, 0 <= q -> q <= 100 ->
            mn <= lerp_at arr (virtual_index (List.length data) q) /\
            lerp_at arr (virtual_index (List.length data) q) <= mx).
  { intros q Hq0 Hq1.
    destruct (virtual_index_range (List.length data) q Hn Hq0 Hq1) as [V0 V1].
    assert (V1' : virtual_index (List.length data) q
                  <= inject_Z (Z.of_nat (List.length arr) - 1))
      by (rewrite (Permutation_length Hperm); exact V1).
    destruct (lerp_at_between arr _ Hs V0 V1') as (a & b & Ha & Hb & Hl & Hu).
    split.
    - apply Qle_trans with a; [|exact Hl].
      apply Hrange. eapply Permutation_in; eassumption.
    - apply Qle_trans with b; [exact Hu|].
      apply Hrange. eapply Permutation_in; eassumption. }
  split; [now apply mean_bounds|].
  split.
  - destruct (Hlerp 25) as [L25 _]; [discriminate|discriminate|].
    destruct (Hlerp 75) as [_ U75]; [discriminate|discriminate|].
    rewrite <- E25 in L25. rewrite <- E75 in U75.
    repeat split; assumption.
  - apply Qle_shift_div_l; [now apply Qlen_pos|].
    rewrite Qmult_0_l. apply sum_of_squares_nonneg.
Qed.

Lemma collect_cases (key : string) (margins : list MarginRecord) :
  collect key margins = Ok (finite_values key margins) \/
  (collect key margins = Raise (KeyError key) /\
   exists margin, In margin margins /\ lookup key margin = None).
Proof.
  induction margins as [|margin rest IH]; simpl; [now left|].
  unfold getitem. destruct (lookup key margin) as [v|] eqn:E.
  - cbn [bind]. destruct IH as [->|(-> & m & Hm & Hnone)].
    + left. cbn [bind]. now destruct v.
    + right. split; [reflexivity|]. exists m. split; [now right|exact Hnone].
  - right. split; [reflexivity|]. exists margin. split; [now left|exact E].
Qed.

Lemma collect_missing (key : string) (margins : list MarginRecord)
    (margin : MarginRecord) :
  In margin margins -> lookup key margin = None ->
  collect key margins = Raise (KeyError key).
Proof.
  intros Hin Hnone. induction margins as [|m0 l IH]; [destruct Hin|].
  simpl. unfold getitem. destruct (lookup key m0) as [v|] eqn:E; [|reflexivity].
  cbn [bind]. destruct Hin as [->|Hin]; [congruence|].
  now rewrite (IH Hin).
Qed.

Lemma describe_cases (data : list Q) :
  (data = [] /\ describe data = Raise (zero_size "minimum")) \/
  (data <> [] /\ exists st, describe data = Ok st /\ describes data st).
Proof.
  destruct data as [|x l].
  - left. now split.
  - right. split; [discriminate|]. apply describe_spec. discriminate.
Qed.

(** Every entry of the result describes the finite values of its key. *)
Lemma statistics_loop_entries (margins : list MarginRecord) (ks : list string) :
  forall acc statistics key st,
    statistics_loop ks margins acc = Ok statistics ->
    lookup key statistics = Some st ->
    lookup key acc = Some st \/
    (finite_values key margins <> [] /\ describes (finite_values key margins) st).
Proof.
  induction ks as [|key0 ks IH]; intros acc statistics key st Hrun Hst; simpl in Hrun.
  - injection Hrun as <-. now left.
  - destruct (collect_cases key0 margins) as [Hc|(Hc & _)]; rewrite Hc in Hrun;
      [|discriminate].
    cbn [bind] in Hrun.
    destruct (describe_cases (finite_values key0 margins))
      as [(_ & Hd)|(Hne & st0 & Hd & Hdesc)]; rewrite Hd in Hrun; [discriminate|].
    cbn [bind] in Hrun.
    destruct (IH _ _ _ _ Hrun Hst) as [Hacc|Hnew]; [|now right].
    destruct (string_dec key0 key) as [<-|Hneq].
    + rewrite lookup_setitem_same in Hacc. injection Hacc as <-. now right.
    + rewrite lookup_setitem_other in Hacc by exact Hneq. now left.
Qed.

Lemma statistics_margins_entries (margins : list MarginRecord)
    (statistics : dict Stats) (key : string) (st : Stats) :
  statistics_margins margins = Ok (Some statistics) ->
  lookup key statistics = Some st ->
  finite_values key margins <> [] /\ describes (finite_values key margins) st.
Proof.
  intros Hrun Hst. unfold statistics_margins in Hrun.
  destruct margins as [|first rest]; [discriminate|].
  destruct (statistics_loop (keys first) (first :: rest) []) as [s|e] eqn:E;
    [|discriminate].
  cbn [bind] in Hrun. injection Hrun as <-.
  destruct (statistics_loop_entries _ _ _ _ _ _ E Hst) as [H|H]; [discriminate|exact H].
Qed.

(** X11: whenever statistics are returned, the interquartile range of
    every key is not negative and not larger than the range from minimum
    to maximum, and the radicand of its standard deviation is not
    negative. *)
Theorem statistics_spread_bounds
    (margins : list MarginRecord) (statistics : dict Stats) (key : string)
    (st : Stats) :
  statistics_margins margins = Ok (Some statistics) ->
  lookup key statistics = Some st ->
  exists mn mx iqr var,
    st_min st = Fin mn /\ st_max st = Fin mx /\
    st_iqr st = Fin iqr /\ st_stddev st = Sqrt (Fin var) /\
    0 <= iqr /\ iqr <= mx - mn /\ 0 <= var.
Proof.
  intros Hrun Hst.
  destruct (statistics_margins_entries _ _ _ _ Hrun Hst) as [Hne Hd].
  destruct (describes_bounds _ _ Hne Hd)
    as (mn & mx & mean & med & p25 & p75 & var & H1 & H2 & _ & _ & H5 & H6
        & _ & _ & _ & _ & _ & (P1 & P2 & P3 & P4) & Hvar).
  exists mn, mx, (p75 - p25), var.
  repeat (split; [assumption|]). split; [lra|]. split; [lra|exact Hvar].
Qed.

Lemma statistics_spread_bounds_witness :
  exists statistics st mn mx iqr var,
    statistics_margins left_right_records = Ok (Some statistics) /\
    lookup "right" statistics = Some st /\
    st_min st = Fin mn /\ st_max st = Fin mx /\
    st_iqr st = Fin iqr /\ st_stddev st = Sqrt (Fin var) /\
    0 <= iqr /\ iqr <= mx - mn /\ 0 <= var.
Proof.
  destruct (statistics_margins left_right_records) as [[statistics|]|] eqn:Hrun;
    try discriminate.
  destruct (lookup "right" statistics) as [st|] eqn:Hst.
  2:{ exfalso. revert Hst. injection Hrun as <-. discriminate. }
  destruct (statistics_spread_bounds _ _ _ _ Hrun Hst)
    as (mn & mx & iqr & var & H).
  exists statistics, st, mn, mx, iqr, var. split; [reflexivity|split; [exact Hst|exact H]].
Defined.

(** X13: when some record lacks a key of the first record, no statistics
    are returned: the call raises [KeyError] for a key of the first record
    that some record lacks, unless the [ValueError] of a key without finite
    values comes first. *)
Theorem statistics_of_uneven_records_raise
    (first : MarginRecord) (rest : list MarginRecord) (key : string)
    (margin : MarginRecord) :
  In key (keys first) ->
  In margin (first :: rest) ->
  lookup key margin = None ->
  exists e,
    statistics_margins (first :: rest) = Raise e /\
    (e = zero_size "minimum" \/
     exists k m, e = KeyError k /\ In k (keys first) /\
                 In m (first :: rest) /\ lookup k m = None).
Proof.
  intros Hkey Hm Hnone.
  assert (Hloop : forall ks acc,
             In key ks ->
             exists e,
               statistics_loop ks (first :: rest) acc = Raise e /\
               (e = zero_size "minimum" \/
                exists k m, e = KeyError k /\ In k ks /\
                            In m (first :: rest) /\ lookup k m = None)).
  { induction ks as [|key0 ks IH]; intros acc Hin; [destruct Hin|].
    cbn [statistics_loop].
    destruct (collect_cases key0 (first :: rest)) as [Hc|(Hc & m & Hm' & Hn')];
      rewrite Hc; cbn [bind].
    - destruct (describe_cases (finite_values key0 (first :: rest)))
        as [(_ & Hd)|(_ & st0 & Hd & _)]; rewrite Hd; cbn [bind].
      + eexists. split; [reflexivity|now left].
      + destruct Hin as [<-|Hin].
        * exfalso. rewrite (collect_missing _ _ _ Hm Hnone) in Hc. discriminate.
        * destruct (IH (setitem key0 st0 acc) Hin) as (e & He & Hcases).
          exists e. split; [exact He|].
          destruct Hcases as [->|(k & m & -> & Hk & Hm' & Hn')]; [now left|].
          right. exists k, m. repeat split; [now right|exact Hm'|exact Hn'].
    - eexists. split; [reflexivity|]. right. exists key0, m.
      repeat split; [now left|exact Hm'|exact Hn']. }
  destruct (Hloop (keys first) [] Hkey) as (e & He & Hcases).
  exists e. unfold statistics_margins. rewrite He. split; [reflexivity|exact Hcases].
Qed.

Lemma statistics_of_uneven_records_raise_witness :
  exists e,
    statistics_margins uneven_records = Raise e /\
    (e = zero_size "minimum" \/
     exists k m, e = KeyError k /\ In k (keys sample_record) /\
                 In m uneven_records /\ lookup k m = None).
Proof.
  apply (statistics_of_uneven_records_raise sample_record [inner_outer_record]
           "left" inner_outer_record).
  - simpl. now left.
  - simpl. right. now left.
  - reflexivity.
Defined.

(** ** Bad cuts, further *)

Lemma get_bad_cuts_below (margins : list MarginRecord)
    (margin_threshold : dict pyfloat) :
  Forall is_dict margins ->
  is_dict margin_threshold ->
  thresholds_cover margin_threshold margins ->
  exists bad,
    get_bad_cuts_with_margin margins margin_threshold = Ok bad /\
    keys bad = keys margin_threshold /\
    forall k t, lookup k margin_threshold = Some t ->
                lookup k bad = Some (below_from 0 k t margins).
Proof.
  intros Hd Hthr Hcov.
  destruct (empty_bad_cuts_spec margin_threshold Hthr) as [Hk0 Hl0].
  destruct (bad_cuts_loop_spec margin_threshold margins Hd Hcov 0%nat
              (empty_bad_cuts margin_threshold))
    as (bad & Hrun & Hk & Hl).
  { apply empty_bad_cuts_ready. }
  exists bad. split; [exact Hrun|]. split; [congruence|].
  intros k t Ht. rewrite (Hl k t Ht), Hl0 by congruence. reflexivity.
Qed.

Lemma flt_monotone (v : pyfloat) (a b : Q) :
  a <= b -> flt v (Fin a) = true -> flt v (Fin b) = true.
Proof.
  intros Hab. destruct v as [|q]; simpl; [discriminate|].
  rewrite !Qltb_lt. intro H. eapply Qlt_le_trans; eassumption.
Qed.

(** X14: raising thresholds never unflags a record: if every finite
    threshold is replaced by one at least as large, every index flagged for
    a key before is flagged for it after. *)
Theorem bad_cuts_grow_with_thresholds
    (margins : list MarginRecord) (thr thr' : dict pyfloat) :
  Forall is_dict margins ->
  is_dict thr -> is_dict thr' ->
  keys thr' = keys thr ->
  thresholds_cover thr margins ->
  (forall k a, lookup k thr = Some (Fin a) ->
               exists b, lookup k thr' = Some (Fin b) /\ a <= b) ->
  exists bad bad',
    get_bad_cuts_with_margin margins thr = Ok bad /\
    get_bad_cuts_with_margin margins thr' = Ok bad' /\
    forall k l, lookup k bad = Some l ->
                exists l', lookup k bad' = Some l' /\ incl l l'.
Proof.
  intros Hd Ht Ht' Hkeys Hcov Hle.
  assert (Hcov' : thresholds_cover thr' margins).
  { eapply Forall_impl; [|exact Hcov]. intros rec H k Hk.
    apply lookup_in_keys. rewrite Hkeys. apply lookup_in_keys. now apply H. }
  destruct (get_bad_cuts_below margins thr Hd Ht Hcov) as (bad & Hrun & Hk & Hl).
  destruct (get_bad_cuts_below margins thr' Hd Ht' Hcov') as (bad' & Hrun' & Hk' & Hl').
  exists bad, bad'. split; [exact Hrun|]. split; [exact Hrun'|].
  intros k l Hlk.
  assert (Hin : In k (keys thr)).
  { rewrite <- Hk. apply lookup_in_keys. congruence. }
  destruct (lookup k thr) as [t|] eqn:Et;
    [|apply lookup_in_keys in Hin; congruence].
  assert (Hin' : lookup k thr' <> None).
  { apply lookup_in_keys. now rewrite Hkeys. }
  destruct (lookup k thr') as [t'|] eqn:Et'; [|congruence].
  rewrite (Hl k t Et) in Hlk. injection Hlk as <-.
  exists (below_from 0 k t' margins). split; [now apply Hl'|].
  intros i Hi. apply below_from_spec in Hi. apply below_from_spec.
  destruct Hi as (Hle0 & rec & v & Hnth & Hv & Hf). split; [exact Hle0|].
  exists rec, v. split; [exact Hnth|]. split; [exact Hv|].
  destruct t as [|a]; [destruct v; discriminate|].
  destruct (Hle k a Et) as (b & Hb & Hab).
  rewrite Et' in Hb. injection Hb as ->. eapply flt_monotone; eassumption.
Qed.

Lemma bad_cuts_grow_with_thresholds_witness :
  exists bad bad',
    get_bad_cuts_with_margin left_right_records left_right_thresholds = Ok bad /\
    get_bad_cuts_with_margin left_right_records raised_thresholds = Ok bad' /\
    forall k l, lookup k bad = Some l ->
                exists l', lookup k bad' = Some l' /\ incl l l'.
Proof.
  apply bad_cuts_grow_with_thresholds.
  - repeat constructor; nodup_strings.
  - nodup_strings.
  - nodup_strings.
  - reflexivity.
  - repeat constructor; keys_not_none.
  - intros k a. simpl.
    destruct (String.eqb k "left"); [intro H; injection H as <-; eexists; split; [reflexivity|discriminate]|].
    destruct (String.eqb k "right"); [intro H; injection H as <-; eexists; split; [reflexivity|discriminate]|].
    destruct (String.eqb k "top"); [intro H; injection H as <-; eexists; split; [reflexivity|discriminate]|].
    destruct (String.eqb k "bottom"); [intro H; injection H as <-; eexists; split; [reflexivity|discriminate]|].
    discriminate.
Defined.

Lemma below_from_nan (k : string) (margins : list MarginRecord) :
  forall s, below_from s k NaN margins = [].
Proof.
  induction margins as [|margin rest IH]; intro s; simpl; [reflexivity|].
  assert (E : is_below k NaN margin = false).
  { unfold is_below. destruct (lookup k margin) as [[|q]|]; reflexivity. }
  rewrite E. apply IH.
Qed.

(** X15: a threshold that is NaN flags no record. *)
Theorem nan_threshold_flags_nothing
    (margins : list MarginRecord) (margin_threshold : dict pyfloat) (k : string) :
  Forall is_dict margins ->
  is_dict margin_threshold ->
  thresholds_cover margin_threshold margins ->
  lookup k margin_threshold = Some NaN ->
  exists bad,
    get_bad_cuts_with_margin margins margin_threshold = Ok bad /\
    lookup k bad = Some [].
Proof.
  intros Hd Ht Hcov Hnan.
  destruct (get_bad_cuts_below margins margin_threshold Hd Ht Hcov)
    as (bad & Hrun & _ & Hl).
  exists bad. split; [exact Hrun|].
  rewrite (Hl k NaN Hnan). now rewrite below_from_nan.
Qed.

Lemma nan_threshold_flags_nothing_witness :
  exists bad,
    get_bad_cuts_with_margin left_right_records nan_thresholds = Ok bad /\
    lookup "left" bad = Some [].
Proof.
  apply nan_threshold_flags_nothing.
  - repeat constructor; nodup_strings.
  - nodup_strings.
  - repeat constructor; keys_not_none.
  - reflexivity.
Defined.

(** ** Crop solving, further *)

Lemma cramer (a00 a01 a10 a11 b0 b1 x0 x1 : Q) :
  ~ a00 * a11 - a01 * a10 == 0 ->
  a00 * x0 + a01 * x1 == b0 ->
  a10 * x0 + a11 * x1 == b1 ->
  x0 == (b0 * a11 - a01 * b1) / (a00 * a11 - a01 * a10) /\
  x1 == (a00 * b1 - a10 * b0) / (a00 * a11 - a01 * a10).
Proof.
  intros Hdet E0 E1. rewrite <- E0, <- E1. split; field; exact Hdet.
Qed.

(** X19: a snapshot without the key left is taken to be named by
    inner/outer: if it lacks inner as well the call raises [KeyError] for
    inner, and whenever the call returns, the result is keyed by inner,
    outer, top, bottom. *)
Theorem crop_without_left_uses_inner_outer (margins desired_margins : dict Q) :
  lookup "left" margins = None ->
  (lookup "inner" margins = None ->
   calculate_margins_to_cut margins desired_margins = Raise (KeyError "inner")) /\
  (forall cut, calculate_margins_to_cut margins desired_margins = Ok cut ->
               keys cut = ["inner"; "outer"; "top"; "bottom"]).
Proof.
  intro Hleft.
  assert (Hwk : width_keys margins = ("inner", "outer")).
  { unfold width_keys, mem. now rewrite Hleft. }
  unfold calculate_margins_to_cut. rewrite Hwk. split.
  - intro Hinner. unfold solve_margin_to_cut.
    now rewrite (getitem_missing _ _ Hinner).
  - intros cut Hrun.
    destruct (solve_margin_to_cut margins desired_margins ("inner", "outer"));
      [|discriminate].
    cbn [bind] in Hrun.
    destruct (solve_margin_to_cut margins desired_margins height_keys);
      [|discriminate].
    cbn [bind] in Hrun. injection Hrun as <-. reflexivity.
Qed.

Lemma crop_without_left_uses_inner_outer_witness :
  (lookup "inner" height_only_snapshot = None ->
   calculate_margins_to_cut height_only_snapshot desired_tenth
   = Raise (KeyError "inner")) /\
  (forall cut, calculate_margins_to_cut height_only_snapshot desired_tenth = Ok cut ->
               keys cut = ["inner"; "outer"; "top"; "bottom"]).
Proof.
  apply crop_without_left_uses_inner_outer. reflexivity.
Defined.

(** X20: a snapshot named by left/right with desired margins that lack the
    key left (named by inner/outer, say) makes the call raise [KeyError]
    for left. *)
Theorem crop_with_mismatched_naming (margins desired_margins : dict Q) (m0 m1 : Q) :
  lookup "left" margins = Some m0 ->
  lookup "right" margins = Some m1 ->
  lookup "left" desired_margins = None ->
  calculate_margins_to_cut margins desired_margins = Raise (KeyError "left").
Proof.
  intros Hl Hr Hd.
  assert (Hwk : width_keys margins = ("left", "right")).
  { unfold width_keys, mem. now rewrite Hl. }
  unfold calculate_margins_to_cut. rewrite Hwk. unfold solve_margin_to_cut.
  rewrite (getitem_ok _ _ _ Hl), (getitem_ok _ _ _ Hr). cbn [bind].
  now rewrite (getitem_missing _ _ Hd).
Qed.

Lemma crop_with_mismatched_naming_witness :
  calculate_margins_to_cut sample_snapshot desired_inner_outer
  = Raise (KeyError "left").
Proof.
  apply (crop_with_mismatched_naming sample_snapshot desired_inner_outer
           (1 # 10) (1 # 10)); reflexivity.
Defined.

(** ** From the crop to the bad cuts *)

Lemma keys_as_thresholds (cut : dict Q) : keys (as_thresholds cut) = keys cut.
Proof.
  unfold as_thresholds, keys. rewrite map_map. reflexivity.
Qed.

Lemma lookup_as_thresholds (cut : dict Q) (k : string) :
  lookup k (as_thresholds cut) = option_map Fin (lookup k cut).
Proof.
  induction cut as [|[k0 c0] cut IH]; simpl; [reflexivity|].
  destruct (String.eqb k k0); [reflexivity|exact IH].
Qed.

Lemma calculate_margins_to_cut_keys (snapshot desired_margins cut : dict Q) :
  calculate_margins_to_cut snapshot desired_margins = Ok cut ->
  keys cut
  = [fst (width_keys snapshot); snd (width_keys snapshot); "top"; "bottom"].
Proof.
  unfold calculate_margins_to_cut. intro Hrun.
  destruct (solve_margin_to_cut snapshot desired_margins (width_keys snapshot));
    [|discriminate].
  cbn [bind] in Hrun.
  destruct (solve_margin_to_cut snapshot desired_margins height_keys);
    [|discriminate].
  cbn [bind] in Hrun. injection Hrun as <-. reflexivity.
Qed.

(** X21: the records of a run and the crop fractions solved from a snapshot
    of the same naming always go together: looking for bad cuts raises
    nothing, and lists for every key of the crop, in increasing order, the
    records whose margin for the key is finite and strictly smaller than
    the crop fraction of the key. *)
Theorem bad_cuts_after_crop_returns
    (pages : list Page) (exception_list : list Z) (inner_outer : bool)
    (snapshot desired_margins cut : dict Q) :
  Forall page_extent_ok pages ->
  calculate_margins_to_cut snapshot desired_margins = Ok cut ->
  mem "left" snapshot = negb inner_outer ->
  exists margins bad,
    calculate_margins pages exception_list inner_outer = Ok margins /\
    bad_cuts_after_crop margins snapshot desired_margins = Ok bad /\
    keys bad = keys cut /\
    forall k c, lookup k cut = Some c ->
      exists l,
        lookup k bad = Some l /\
        StronglySorted lt l /\
        forall i, In i l <->
                  exists rec q, nth_error margins i = Some rec /\
                                lookup k rec = Some (Fin q) /\ q < c.
Proof.
  intros Hok Hcut Hnaming.
  destruct (calculate_margins_loop_shape exception_list inner_outer pages 0 [])
    as (recs & Hrun & Hshape).
  { intros k p Hk _. right. rewrite Forall_forall in Hok.
    eapply Hok, nth_error_In, Hk. }
  simpl in Hrun.
  assert (Hkeys : Forall (fun rec => keys rec = record_keys inner_outer) recs).
  { eapply Forall2_Forall_right; [exact Hshape|]. now intros a b [H _]. }
  pose proof (calculate_margins_to_cut_keys _ _ _ Hcut) as Hcutkeys.
  assert (Hwk : keys cut
                = if inner_outer then ["inner"; "outer"; "top"; "bottom"]
                  else ["left"; "right"; "top"; "bottom"]).
  { rewrite Hcutkeys. unfold width_keys. rewrite Hnaming.
    now destruct inner_outer. }
  destruct (get_bad_cuts_below recs (as_thresholds cut)) as (bad & Hbad & Hk & Hl).
  - eapply Forall_impl; [|exact Hkeys]. intros rec Hrec.
    unfold is_dict. rewrite Hrec. destruct inner_outer; nodup_strings.
  - unfold is_dict. rewrite keys_as_thresholds, Hwk.
    destruct inner_outer; nodup_strings.
  - eapply Forall_impl; [|exact Hkeys]. intros rec Hrec k Hin.
    apply lookup_in_keys. rewrite keys_as_thresholds, Hwk.
    rewrite Hrec in Hin. unfold record_keys in Hin.
    destruct inner_outer; simpl in *; tauto.
  - exists recs, bad. split; [exact Hrun|].
    unfold bad_cuts_after_crop. rewrite Hcut. cbn [bind].
    split; [exact Hbad|]. split; [now rewrite Hk, keys_as_thresholds|].
    intros k c Hc.
    assert (Ht : lookup k (as_thresholds cut) = Some (Fin c))
      by (now rewrite lookup_as_thresholds, Hc).
    exists (below_from 0 k (Fin c) recs).
    split; [now apply Hl|]. split; [apply below_from_sorted|].
    intro i. rewrite below_from_spec, Nat.sub_0_r. split.
    + intros (_ & rec & v & Hnth & Hv & Hf).
      destruct v as [|q]; [discriminate|].
      exists rec, q. split; [exact Hnth|]. split; [exact Hv|].
      now apply Qltb_lt.
    + intros (rec & q & Hnth & Hv & Hlt). split; [lia|].
      exists rec, (Fin q). split; [exact Hnth|]. split; [exact Hv|].
      now apply Qltb_lt.
Qed.

Lemma bad_cuts_after_crop_returns_witness :
  exists cut margins bad,
    calculate_margins_to_cut narrow_snapshot desired_tenth = Ok cut /\
    calculate_margins sample_pages sample_exceptions false = Ok margins /\
    bad_cuts_after_crop margins narrow_snapshot desired_tenth = Ok bad /\
    keys bad = keys cut /\
    forall k c, lookup k cut = Some c ->
      exists l,
        lookup k bad = Some l /\
        StronglySorted lt l /\
        forall i, In i l <->
                  exists rec q, nth_error margins i = Some rec /\
                                lookup k rec = Some (Fin q) /\ q < c.
Proof.
  destruct (calculate_margins_to_cut narrow_snapshot desired_tenth) as [cut|] eqn:Hcut.
  2:{ exfalso. revert Hcut. vm_compute. discriminate. }
  destruct (bad_cuts_after_crop_returns sample_pages sample_exceptions false
              narrow_snapshot desired_tenth cut sample_pages_ok Hcut eq_refl)
    as (margins & bad & H).
  exists cut, margins, bad. split; [reflexivity|exact H].
Defined.

(** * Exclusion stated on the entries of the list *)

Lemma listed_In (exception_list : list Z) (i : nat) :
  listed exception_list i = true <-> In (Z.of_nat i) exception_list.
Proof.
  unfold listed. destruct (in_dec Z.eq_dec (Z.of_nat i) exception_list);
    split; congruence || tauto.
Qed.

Lemma excluded_listed (exception_list : list Z) (i : nat) :
  excluded i exception_list = listed exception_list i.
Proof.
  unfold excluded. destruct (listed exception_list i) eqn:E.
  - apply listed_In in E. apply existsb_exists.
    exists (Z.of_nat i). split; [exact E|apply Z.eqb_refl].
  - destruct (existsb (Z.eqb (Z.of_nat i)) exception_list) eqn:Ex; [|reflexivity].
    apply existsb_exists in Ex. destruct Ex as (z & Hz & Heq).
    apply Z.eqb_eq in Heq. subst z. apply listed_In in Hz. congruence.
Qed.

Lemma listed_ext (exc exc' : list Z) (i : nat) :
  (In (Z.of_nat i) exc' <-> In (Z.of_nat i) exc) ->
  listed exc' i = listed exc i.
Proof.
  intro H. destruct (listed exc i) eqn:E.
  - apply listed_In, H, listed_In, E.
  - destruct (listed exc' i) eqn:E'; [|reflexivity].
    apply listed_In, H, listed_In in E'. congruence.
Qed.

Lemma retained_from_filter (exception_list : list Z) (pages : list Page) :
  forall s,
    retained_from s pages exception_list
    = filter (fun ip => negb (listed exception_list (fst ip)))
        (combine (seq s (List.length pages)) pages).
Proof.
  induction pages as [|page rest IH]; intro s; simpl; [reflexivity|].
  rewrite excluded_listed. destruct (listed exception_list s); simpl; now rewrite IH.
Qed.

Lemma filter_combine_length (f : nat -> bool) (pages : list Page) :
  forall s,
    List.length (filter (fun ip => f (fst ip))
                   (combine (seq s (List.length pages)) pages))
    = List.length (filter f (seq s (List.length pages))).
Proof.
  induction pages as [|page rest IH]; intro s; simpl; [reflexivity|].
  destruct (f s); simpl; now rewrite IH.
Qed.

Lemma margin_of_page_record (inner_outer : bool) (i : nat) (page : Page)
    (rec : MarginRecord) :
  margin_of_page inner_outer i page = Ok rec ->
  is_record_of inner_outer i page rec.
Proof.
  unfold margin_of_page, is_record_of.
  destruct (get_bounding_box page) as [bbox|]; [|discriminate].
  cbn [bind]. intro H. exists bbox. split; [reflexivity|].
  destruct inner_outer; [exact H|congruence].
Qed.

(** The loop appends the record of each retained page, in order; only the
    retained pages with content need an extent. *)
Lemma calculate_margins_loop_retained (exception_list : list Z)
    (inner_outer : bool) (pages : list Page) :
  forall (s : nat) (acc : list MarginRecord),
    (forall k page, nth_error pages k = Some page ->
                    excluded (s + k) exception_list = false ->
                    text_blocks page = [] \/ page_extent_ok page) ->
    exists recs,
      calculate_margins_loop s pages exception_list inner_outer acc
      = Ok (acc ++ recs)%list /\
      Forall2 (fun ip rec => is_record_of inner_outer (fst ip) (snd ip) rec)
        (retained_from s pages exception_list) recs.
Proof.
  induction pages as [|page rest IH]; intros s acc Hpages; simpl.
  - exists []. rewrite app_nil_r. split; [reflexivity|constructor].
  - assert (Hrest : forall k p, nth_error rest k = Some p ->
                      excluded (S s + k) exception_list = false ->
                      text_blocks p = [] \/ page_extent_ok p).
    { intros k p Hk Hex. apply (Hpages (S k)); [exact Hk|].
      now rewrite <- Nat.add_succ_comm. }
    destruct (excluded s exception_list) eqn:Eex.
    + now apply IH.
    + destruct (margin_of_page_shape inner_outer s page) as (rec & Hrec & _).
      { apply (Hpages 0%nat); [reflexivity|]. now rewrite Nat.add_0_r. }
      rewrite Hrec. cbn [bind].
      destruct (IH (S s) (acc ++ [rec])%list Hrest) as (recs & Hrun & Hall).
      exists (rec :: recs). split.
      * rewrite <- app_assoc in Hrun. exact Hrun.
      * constructor; [now apply margin_of_page_record|exact Hall].
Qed.

Lemma page_indices_In (n i : nat) (exception_list : list Z) :
  (i < n)%nat ->
  In (Z.of_nat i) (page_indices n exception_list) <-> In (Z.of_nat i) exception_list.
Proof.
  intro Hi. unfold page_indices. rewrite filter_In. split; [tauto|].
  intro H. split; [exact H|].
  apply andb_true_intro. split; [apply Z.leb_le|apply Z.ltb_lt]; lia.
Qed.

(** C6: the result is the list of the records of the pages whose index is
    not an entry of the exclusion list, one record per such page, in
    document order, each being the record of its own page at its own
    index; its length is the page count minus the number of page indices
    that are entries of the list; entries that are not page indices have no
    effect: two lists with the same page indices give the same result, and
    so does the list cut down to its page indices.  The retained pages
    with content have a non-empty extent. *)
Theorem calculate_margins_one_record_per_retained_page
    (pages : list Page) (exception_list : list Z) (inner_outer : bool) :
  (forall i page, nth_error pages i = Some page ->
                  ~ In (Z.of_nat i) exception_list ->
                  text_blocks page = [] \/ page_extent_ok page) ->
  exists margins,
    calculate_margins pages exception_list inner_outer = Ok margins /\
    Forall2 (fun ip rec => is_record_of inner_outer (fst ip) (snd ip) rec)
      (filter (fun ip => negb (listed exception_list (fst ip))) (enumerate pages))
      margins /\
    List.length margins
    = (List.length pages
       - List.length (filter (listed exception_list)
                        (seq 0 (List.length pages))))%nat /\
    (forall exception_list',
        (forall i, (i < List.length pages)%nat ->
                   (In (Z.of_nat i) exception_list'
                    <-> In (Z.of_nat i) exception_list)) ->
        calculate_margins pages exception_list' inner_outer = Ok margins) /\
    calculate_margins pages (page_indices (List.length pages) exception_list)
      inner_outer
    = Ok margins.
Proof.
  intro Hpages.
  destruct (calculate_margins_loop_retained exception_list inner_outer pages 0 [])
    as (recs & Hrun & Hall).
  { intros k page Hk Hex. apply (Hpages k page Hk).
    simpl in Hex. rewrite excluded_listed in Hex.
    intro Hin. apply listed_In in Hin. congruence. }
  simpl in Hrun. rewrite retained_from_filter in Hall.
  assert (Hext : forall exception_list',
             (forall i, (i < List.length pages)%nat ->
                        (In (Z.of_nat i) exception_list'
                         <-> In (Z.of_nat i) exception_list)) ->
             calculate_margins pages exception_list' inner_outer = Ok recs).
  { intros exc' Hsame. unfold calculate_margins.
    rewrite (calculate_margins_loop_ext exception_list exc'); [exact Hrun|].
    intros i Hi. rewrite !excluded_listed. apply listed_ext, Hsame. lia. }
  exists recs. split; [exact Hrun|]. split; [exact Hall|].
  split; [|split; [exact Hext|]].
  - rewrite <- (Forall2_length Hall). unfold enumerate.
    rewrite (filter_combine_length (fun i => negb (listed exception_list i))).
    pose proof (filter_split_length (listed exception_list)
                  (seq 0 (List.length pages))) as H.
    rewrite length_seq in H. lia.
  - apply Hext. intros i Hi. now apply page_indices_In.
Qed.

Lemma calculate_margins_one_record_per_retained_page_witness :
  exists margins,
    calculate_margins mixed_pages sample_exceptions true = Ok margins /\
    Forall2 (fun ip rec => is_record_of true (fst ip) (snd ip) rec)
      (filter (fun ip => negb (listed sample_exceptions (fst ip)))
         (enumerate mixed_pages))
      margins /\
    List.length margins
    = (List.length mixed_pages
       - List.length (filter (listed sample_exceptions)
                        (seq 0 (List.length mixed_pages))))%nat /\
    (forall exception_list',
        (forall i, (i < List.length mixed_pages)%nat ->
                   (In (Z.of_nat i) exception_list'
                    <-> In (Z.of_nat i) sample_exceptions)) ->
        calculate_margins mixed_pages exception_list' true = Ok margins) /\
    calculate_margins mixed_pages
      (page_indices (List.length mixed_pages) sample_exceptions) true
    = Ok margins.
Proof.
  apply calculate_margins_one_record_per_retained_page.
  intros i page Hnth Hnot.
  destruct i as [|[|[|i]]]; simpl in Hnth.
  - exfalso. apply Hnot. simpl. now left.
  - injection Hnth as <-. right. split; discriminate.
  - injection Hnth as <-. now left.
  - destruct i; discriminate.
Defined.

(** * The crop, on well-conditioned margins and at its failures *)

Lemma within_tolerance_of_eq (p d : Q) : p == d -> Qabs (p - d) <= tolerance.
Proof.
  intro H. assert (E : p - d == 0) by (rewrite H; ring).
  rewrite E. discriminate.
Qed.


Lemma well_conditioned_regular (m0 m1 d0 d1 : Q) :
  well_conditioned m0 m1 d0 d1 -> ~ det d0 d1 == 0 /\ ~ m0 + m1 == 1.
Proof.
  intros (_ & _ & _ & _ & Hm & Hd). rewrite det_sum.
  assert ((99 # 100) < 1) by reflexivity. split; lra.
Qed.









(** * Statistics and crop fractions, up to rounding *)

(** X10: whenever statistics are returned, the min and the max of every key
    are the least and the greatest finite value of the key, and its median
    lies between them. *)
Theorem statistics_median_within_range
    (margins : list MarginRecord) (statistics : dict Stats) (key : string)
    (st : Stats) :
  statistics_margins margins = Ok (Some statistics) ->
  lookup key statistics = Some st ->
  exists mn mx med,
    st_min st = Fin mn /\ st_max st = Fin mx /\ st_median st = Fin med /\
    is_min mn (finite_values key margins) /\
    is_max mx (finite_values key margins) /\
    mn <= med /\ med <= mx.
Proof.
  intros Hrun Hst.
  destruct (statistics_margins_entries _ _ _ _ Hrun Hst) as [Hne Hd].
  destruct (describes_bounds _ _ Hne Hd)
    as (mn & mx & mean & med & p25 & p75 & var & H1 & H2 & _ & H4 & _ & _
        & Imin & Imax & _ & _ & _ & (P1 & P2 & P3 & P4) & _).
  exists mn, mx, med.
  repeat (split; [assumption|]). split; lra.
Qed.

Lemma statistics_median_within_range_witness :
  exists statistics st mn mx med,
    statistics_margins left_right_records = Ok (Some statistics) /\
    lookup "top" statistics = Some st /\
    st_min st = Fin mn /\ st_max st = Fin mx /\ st_median st = Fin med /\
    is_min mn (finite_values "top" left_right_records) /\
    is_max mx (finite_values "top" left_right_records) /\
    mn <= med /\ med <= mx.
Proof.
  destruct (statistics_margins left_right_records) as [[statistics|]|] eqn:Hrun;
    try discriminate.
  destruct (lookup "top" statistics) as [st|] eqn:Hst.
  2:{ exfalso. revert Hst. injection Hrun as <-. discriminate. }
  destruct (statistics_median_within_range _ _ _ _ Hrun Hst)
    as (mn & mx & med & H).
  exists statistics, st, mn, mx, med.
  split; [reflexivity|split; [exact Hst|exact H]].
Defined.

(** X12: when all finite values of a key are equal to [v], its min, its
    max and its median are [v] and its interquartile range is 0. *)
Theorem statistics_of_equal_values
    (margins : list MarginRecord) (statistics : dict Stats) (key : string)
    (st : Stats) (v : Q) :
  statistics_margins margins = Ok (Some statistics) ->
  lookup key statistics = Some st ->
  (forall q, In q (finite_values key margins) -> q == v) ->
  exists mn mx med iqr,
    st_min st = Fin mn /\ st_max st = Fin mx /\
    st_median st = Fin med /\ st_iqr st = Fin iqr /\
    mn == v /\ mx == v /\ med == v /\ iqr == 0.
Proof.
  intros Hrun Hst Hconst.
  destruct (statistics_margins_entries _ _ _ _ Hrun Hst) as [Hne Hd].
  destruct (describes_bounds _ _ Hne Hd)
    as (mn & mx & mean & med & p25 & p75 & var & H1 & H2 & _ & H4 & H5 & _
        & [Imin _] & [Imax _] & _ & _ & _ & (P1 & P2 & P3 & P4) & _).
  pose proof (Hconst _ Imin) as Emn. pose proof (Hconst _ Imax) as Emx.
  exists mn, mx, med, (p75 - p25).
  repeat (split; [assumption|]). split; lra.
Qed.

Lemma statistics_of_equal_values_witness :
  exists statistics st mn mx med iqr,
    statistics_margins repeated_records = Ok (Some statistics) /\
    lookup "top" statistics = Some st /\
    st_min st = Fin mn /\ st_max st = Fin mx /\
    st_median st = Fin med /\ st_iqr st = Fin iqr /\
    mn == 1 # 10 /\ mx == 1 # 10 /\ med == 1 # 10 /\ iqr == 0.
Proof.
  destruct (statistics_margins repeated_records) as [[statistics|]|] eqn:Hrun;
    try discriminate.
  destruct (lookup "top" statistics) as [st|] eqn:Hst.
  2:{ exfalso. revert Hst. injection Hrun as <-. discriminate. }
  destruct (statistics_of_equal_values _ _ _ _ (1 # 10) Hrun Hst)
    as (mn & mx & med & iqr & H).
  - simpl. intros q [<-|[<-|[<-|[]]]]; reflexivity.
  - exists statistics, st, mn, mx, med, iqr.
    split; [reflexivity|split; [exact Hst|exact H]].
Defined.

(** X16: for an axis with well-conditioned margins (fractions that are not
    negative, observed and desired sums of at most 99%), the crop fractions
    are within 1e-9 of the closed form
    [c0 = (m0 (1 - d1) - d0 (1 - m1)) / (1 - d0 - d1)] and
    [c1 = (m1 (1 - d0) - d1 (1 - m0)) / (1 - d0 - d1)]. *)
Theorem solve_margin_to_cut_closed_form
    (margins desired_margins : dict Q) (margin_keys : string * string)
    (m0 m1 d0 d1 : Q) :
  axis_values margins desired_margins margin_keys = Some (m0, m1, d0, d1) ->
  well_conditioned m0 m1 d0 d1 ->
  exists c0 c1,
    solve_margin_to_cut margins desired_margins margin_keys = Ok (c0, c1) /\
    Qabs (c0 - (m0 * (1 - d1) - d0 * (1 - m1)) / (1 - d0 - d1)) <= tolerance /\
    Qabs (c1 - (m1 * (1 - d0) - d1 * (1 - m0)) / (1 - d0 - d1)) <= tolerance.
Proof.
  intros Hv Hc.
  destruct (well_conditioned_regular _ _ _ _ Hc) as [Hdet _].
  destruct (solve_margin_to_cut_regular _ _ _ _ _ _ _ Hv Hdet)
    as (c0 & c1 & Hrun & E0 & E1).
  exists c0, c1. split; [exact Hrun|].
  destruct (cramer _ _ _ _ _ _ _ _ Hdet E0 E1) as [C0 C1].
  assert (Hden : ~ 1 - d0 - d1 == 0) by (rewrite <- det_sum; exact Hdet).
  split; apply within_tolerance_of_eq.
  - rewrite C0. field. exact Hden.
  - rewrite C1. field. exact Hden.
Qed.

Lemma solve_margin_to_cut_closed_form_witness :
  exists c0 c1,
    solve_margin_to_cut narrow_snapshot sample_snapshot ("left", "right")
    = Ok (c0, c1) /\
    Qabs (c0 - ((5 # 100) * (1 - (1 # 10)) - (1 # 10) * (1 - (5 # 100)))
               / (1 - (1 # 10) - (1 # 10))) <= tolerance /\
    Qabs (c1 - ((5 # 100) * (1 - (1 # 10)) - (1 # 10) * (1 - (5 # 100)))
               / (1 - (1 # 10) - (1 # 10))) <= tolerance.
Proof.
  apply (solve_margin_to_cut_closed_form narrow_snapshot sample_snapshot
           ("left", "right") (5 # 100) (5 # 100) (1 # 10) (1 # 10)).
  - reflexivity.
  - repeat split; discriminate.
Defined.
